(** * safe_transaction_service.history.services.balance_service

    A shallow embedding of [BalanceService] (balances of a Safe, their
    metadata and their valuation in USD) together with the parts of the
    Python runtime and of the [cachetools] library the service relies on.

    - Python [int] is [Z]; Python [float] is Rocq's primitive binary64
      [float]; [str] is [string]; [Optional[T]] is [option T].
    - A call either returns a value or raises: [result].
    - The service is stateful (three caches).  Methods are functions of the
      outside world ([World]: clock, HTTP endpoints, oracles, node) and of
      the service state, returning a result and the new state.  The state
      also carries a log of the calls made to collaborators. *)

From Stdlib Require Import ZArith Lia List Ascii String.
From Stdlib Require Import Floats.PrimFloat.
From Stdlib Require Import Floats.SpecFloat Floats.FloatOps.
From stdpp Require Import gmap strings list fin_maps.

Set Warnings "-inexact-float,-register-all".
Open Scope Z_scope.

Abbreviation float := PrimFloat.float.

(** ** Exceptions and results *)

Inductive exn :=
| AssertionError
| AttributeError
| CannotGetEthereumPrice
| IndexError
| KeyError
| OverflowError
| RequestException
| TypeError
| ValueError
| ZeroDivisionError.

#[global] Instance exn_eq_dec : EqDecision exn.
Proof. solve_decision. Defined.

Inductive result (A : Type) :=
| Ok (a : A)
| Raise (e : exn).
Arguments Ok {A} a.
Arguments Raise {A} e.

Definition result_bind {A B} (r : result A) (k : A -> result B) : result B :=
  match r with
  | Ok a => k a
  | Raise e => Raise e
  end.

(** ** Python numbers *)

Module Py.

(** The binary64 value nearest to [a / b] (ties to even) for positive
    integers [a] and [b], with sign [neg]. *)
Definition sf_of_quotient (neg : bool) (a b : Z) : spec_float :=
  let '(q, e, l) := SFdiv_core_binary prec emax a 0 b 0 in
  binary_round_aux prec emax neg q e l.

(** [a / b] on two [int]s: true division, correctly rounded. *)
Definition int_truediv (a b : Z) : result float :=
  if b =? 0 then Raise ZeroDivisionError
  else
    let neg := xorb (a <? 0) (b <? 0) in
    if a =? 0 then Ok (SF2Prim (S754_zero neg))
    else match sf_of_quotient neg (Z.abs a) (Z.abs b) with
         | S754_infinity _ => Raise OverflowError
         | sf => Ok (SF2Prim sf)
         end.

(** [float(n)] on an [int]. *)
Definition float_of_int (n : Z) : result float :=
  match binary_normalize prec emax n 0 false with
  | S754_infinity _ => Raise OverflowError
  | sf => Ok (SF2Prim sf)
  end.

(** [n / d] rounded to the nearest integer, ties to even ([d > 0]). *)
Definition round_half_even_div (n d : Z) : Z :=
  let q := n / d in
  let r := n mod d in
  match (2 * r ?= d) with
  | Lt => q
  | Gt => q + 1
  | Eq => if Z.even q then q else q + 1
  end.

(** [round(x, ndigits)] on a [float], for [ndigits >= 0]: the exact value of
    [x] is rounded to [ndigits] decimals (ties to even) and the decimal
    obtained is converted back to the nearest [float]; infinities and NaN
    round to themselves. *)
Definition round (x : float) (ndigits : Z) : result float :=
  match Prim2SF x with
  | S754_finite s m e =>
      let p := 10 ^ ndigits in
      let n := if 0 <=? e then Zpos m * 2 ^ e * p
               else round_half_even_div (Zpos m * p) (2 ^ (- e)) in
      if n =? 0 then Ok (SF2Prim (S754_zero s))
      else match sf_of_quotient s n p with
           | S754_infinity _ => Raise OverflowError
           | sf => Ok (SF2Prim sf)
           end
  | _ => Ok x
  end.

(** Truth value of a [float]: [x != 0.0] (NaN is true, [-0.0] is false). *)
Definition float_truthy (x : float) : bool := negb (PrimFloat.eqb x PrimFloat.zero).

(** Truth value of an [Optional[str]]: [None] and [''] are false. *)
Definition str_truthy (s : option string) : bool :=
  match s with
  | None => false
  | Some s => negb (String.eqb s "")
  end.

(** [x * y] where [x] is an [Optional[float]] and [y] a [float]. *)
Definition mul (x : option float) (y : float) : result float :=
  match x with
  | Some x => Ok (PrimFloat.mul x y)
  | None => Raise TypeError
  end.

(** ** JSON documents as Python values *)

Inductive json :=
| JNull
| JBool (b : bool)
| JInt (n : Z)
| JFloat (f : float)
| JStr (s : string)
| JArr (items : list json)
| JObj (members : list (string * json)).

Definition truthy (v : json) : bool :=
  match v with
  | JNull => false
  | JBool b => b
  | JInt n => negb (n =? 0)
  | JFloat f => float_truthy f
  | JStr s => negb (String.eqb s "")
  | JArr l => match l with [] => false | _ => true end
  | JObj l => match l with [] => false | _ => true end
  end.

(** Lookup in a [dict] with [str] keys, kept in insertion order. *)
Fixpoint dict_lookup (members : list (string * json)) (k : string) : option json :=
  match members with
  | [] => None
  | (k', v) :: rest => if String.eqb k' k then Some v else dict_lookup rest k
  end.

(** [l[i]] on a sequence: negative indices count from the end. *)
Definition seq_index {A} (l : list A) (i : Z) : result A :=
  let n := Z.of_nat (length l) in
  let j := if i <? 0 then i + n else i in
  if (0 <=? j) && (j <? n)
  then match nth_error l (Z.to_nat j) with
       | Some x => Ok x
       | None => Raise IndexError
       end
  else Raise IndexError.

Definition chars (s : string) : list json :=
  map (fun c => JStr (String c EmptyString)) (String.list_ascii_of_string s).

(** [v.get(k)]: only a [dict] has the method. *)
Definition get (v : json) (k : string) : result json :=
  match v with
  | JObj members => Ok (match dict_lookup members k with Some x => x | None => JNull end)
  | _ => Raise AttributeError
  end.

(** [v[k]] *)
Definition getitem (v k : json) : result json :=
  match v with
  | JObj members =>
      match k with
      | JStr s => match dict_lookup members s with Some x => Ok x | None => Raise KeyError end
      | JArr _ | JObj _ => Raise TypeError
      | _ => Raise KeyError
      end
  | JArr items =>
      match k with
      | JInt i => seq_index items i
      | JBool b => seq_index items (if b then 1 else 0)
      | _ => Raise TypeError
      end
  | JStr s =>
      match k with
      | JInt i => seq_index (chars s) i
      | JBool b => seq_index (chars s) (if b then 1 else 0)
      | _ => Raise TypeError
      end
  | _ => Raise TypeError
  end.

(** The items [for x in v] goes through. *)
Definition iter (v : json) : result (list json) :=
  match v with
  | JObj members => Ok (map (fun kv => JStr (fst kv)) members)
  | JArr items => Ok items
  | JStr s => Ok (chars s)
  | _ => Raise TypeError
  end.

Section Float.
(** [float(s)] on a [str]: [None] stands for [ValueError]. *)
Variable float_of_string : string -> option float.

(** [float(v)] *)
Definition to_float (v : json) : result float :=
  match v with
  | JStr s => match float_of_string s with Some f => Ok f | None => Raise ValueError end
  | JInt n => float_of_int n
  | JFloat f => Ok f
  | JBool b => Ok (if b then PrimFloat.one else PrimFloat.zero)
  | _ => Raise TypeError
  end.
End Float.

(** A reading of [float(s)] for the plain decimal notation the tickers use
    (digits with an optional fractional part, no sign, no exponent): the
    decimal is converted to the nearest [float].  Any other string is
    rejected here. *)
Definition digit_of_ascii (c : ascii) : option Z :=
  let n := Z.of_nat (nat_of_ascii c) in
  if (48 <=? n) && (n <=? 57) then Some (n - 48) else None.

Fixpoint digits_value (acc : Z) (count : Z) (cs : list ascii) : option (Z * Z) :=
  match cs with
  | [] => Some (acc, count)
  | c :: rest =>
      match digit_of_ascii c with
      | Some d => digits_value (10 * acc + d) (count + 1) rest
      | None => None
      end
  end.

Fixpoint split_at_dot (cs : list ascii) : list ascii * option (list ascii) :=
  match cs with
  | [] => ([], None)
  | c :: rest =>
      if Ascii.eqb c (ascii_of_nat 46) then ([], Some rest)
      else let '(before, after) := split_at_dot rest in (c :: before, after)
  end.

Definition float_of_decimal_string (s : string) : option float :=
  let '(ip, fp) := split_at_dot (String.list_ascii_of_string s) in
  match ip, digits_value 0 0 ip with
  | _ :: _, Some (i, _) =>
      match fp with
      | None => match float_of_int i with Ok f => Some f | Raise _ => None end
      | Some fp =>
          match digits_value i 0 fp with
          | Some (n, d) => match int_truediv n (10 ^ d) with Ok f => Some f | Raise _ => None end
          | None => None
          end
      end
  | _, _ => None
  end.

End Py.

(** ** cachetools

    [TTLCache(maxsize, ttl)] as the library documents it: a mapping bounded
    in size whose items expire [ttl] after they were stored; when full, the
    least recently used item is discarded.  [items] lists what is stored
    from the least to the most recently used, each item with its expiry
    time.  The timer is monotonic and [ttl] is fixed, so the items that
    expired are the ones the library reaches when it walks its links from
    the oldest one on. *)

Module Cachetools.

Record TTLCache (K V : Type) := {
  maxsize : nat;
  ttl : Z;
  items : list (K * (V * Z))
}.
Arguments maxsize {K V} _.
Arguments ttl {K V} _.
Arguments items {K V} _.

Section TTL.
Context {K V : Type} `{EqDecision K}.

Definition with_items (c : TTLCache K V) (l : list (K * (V * Z))) : TTLCache K V :=
  {| maxsize := maxsize c; ttl := ttl c; items := l |}.

(** An item has expired when its expiry time lies before the timer
    ([link.expire < timer()]). *)
Definition expired (time : Z) (it : K * (V * Z)) : bool := snd (snd it) <? time.

Definition has_key (k : K) (it : K * (V * Z)) : bool := bool_decide (fst it = k).

Definition find_key (k : K) (l : list (K * (V * Z))) : option (K * (V * Z)) :=
  List.find (has_key k) l.

Definition remove_key (k : K) (l : list (K * (V * Z))) : list (K * (V * Z)) :=
  List.filter (fun it => negb (has_key k it)) l.

(** [TTLCache.expire(time)] *)
Definition expire (time : Z) (c : TTLCache K V) : TTLCache K V :=
  with_items c (List.filter (fun it => negb (expired time it)) (items c)).

(** [c[k]]: the item becomes the most recently used; [None] is [KeyError]
    (no item, or an expired one). *)
Definition getitem (time : Z) (c : TTLCache K V) (k : K) : option V * TTLCache K V :=
  match find_key k (items c) with
  | None => (None, c)
  | Some it =>
      (if expired time it then None else Some (fst (snd it)),
       with_items c (remove_key k (items c) ++ [it]))
  end.

(** [c[k] = v]: expired items go first, then least recently used ones while
    there is no room for a new key; [None] is [ValueError] (value too
    large, when [maxsize] is 0). *)
Definition setitem (time : Z) (c : TTLCache K V) (k : K) (v : V) : option (TTLCache K V) :=
  if (maxsize c <? 1)%nat then None
  else
    let live := items (expire time c) in
    let kept :=
      match find_key k live with
      | Some _ => live
      | None => drop (length live + 1 - maxsize c) live
      end in
    Some (with_items c (remove_key k kept ++ [(k, (v, time + ttl c))])).

End TTL.

End Cachetools.

(** ** Data classes *)

Definition get_erc20_logo_uri (address : string) : string :=
  "https://gnosis-safe-token-logos.s3.amazonaws.com/" +:+ address +:+ ".png".

(** [gnosis.eth.ethereum_client.Erc20Info]; [decimals] is the [uint8] the
    token contract answers. *)
Record Erc20Info := {
  info_name : string;
  info_symbol : string;
  info_decimals : N
}.

Record Erc20InfoWithLogo := {
  address : string;
  name : string;
  symbol : string;
  decimals : N;
  logo_uri : string
}.

(** [Erc20InfoWithLogo(address, name, symbol, decimals)] with its
    [__post_init__]. *)
Definition new_Erc20InfoWithLogo (address name symbol : string) (decimals : N) : Erc20InfoWithLogo :=
  {| address := address; name := name; symbol := symbol; decimals := decimals;
     logo_uri := get_erc20_logo_uri address |}.

(** An item of [ethereum_client.erc20.get_balances]:
    [{'token_address': ..., 'balance': ...}]. *)
Record RawBalance := {
  raw_token_address : option string;
  raw_balance : Z
}.

Record Balance := {
  token_address : option string;
  token : option Erc20InfoWithLogo;
  balance : Z
}.

Record BalanceWithUsd := {
  usd_token_address : option string;
  usd_token : option Erc20InfoWithLogo;
  usd_balance : Z;
  balance_usd : float
}.

(** The [Balance] a [BalanceWithUsd] extends. *)
Definition as_Balance (b : BalanceWithUsd) : Balance :=
  {| token_address := usd_token_address b; token := usd_token b; balance := usd_balance b |}.

(** ** The world outside the service

    A collaborator answers, or fails with the exception the code catches
    at its call; [requests.get] and [response.json] may also fail with the
    exceptions named below, which no method catches.  Any other exception
    of a collaborator would pass through the method that made the call;
    such exceptions are outside this model. *)

Record Response := {
  ok : bool;
  (** the decoded body; [None] when [response.json()] raises [ValueError] *)
  json : option Py.json
}.

Record World := {
  (** [time.monotonic()], the timer of the TTL caches *)
  now : Z;
  (** [requests.get(url)]; [None] is a [RequestException] *)
  requests_get : string -> option Response;
  (** [UniswapOracle.get_price]; [None] is [OracleException] *)
  uniswap_get_price : string -> option float;
  (** [KyberOracle.get_price]; [None] is [OracleException] *)
  kyber_get_price : string -> option float;
  (** [ethereum_client.erc20.get_info]; [None] is [InvalidERC20Info] *)
  erc20_get_info : string -> option Erc20Info;
  (** [EthereumEvent.objects.erc20_tokens_used_by_address] *)
  erc20_tokens_used_by_address : string -> list string;
  (** [ethereum_client.erc20.get_balances] *)
  erc20_get_balances : string -> list string -> list RawBalance
}.

(** Calls to collaborators and log records, as they happen. *)
Inductive Event :=
| HttpGet (url : string)
| UniswapGetPrice (token_address : string)
| KyberGetPrice (token_address : string)
| Erc20GetInfo (token_address : string)
| Erc20TokensUsedByAddress (safe_address : string)
| Erc20GetBalances (safe_address : string) (erc20_addresses : list string)
| LogWarning (message : string) (arg : string).

(** ** The service *)

Record BalanceService := {
  cache_eth_usd_price : Cachetools.TTLCache unit (option float);
  cache_token_eth_value : Cachetools.TTLCache string float;
  cache_token_info : gmap string (option Erc20InfoWithLogo);
  (** what the service did to the world so far, oldest first *)
  events : list Event
}.

(** [BalanceService.__init__] *)
Definition new_BalanceService : BalanceService :=
  {| cache_eth_usd_price := {| Cachetools.maxsize := 2048; Cachetools.ttl := 60 * 30; Cachetools.items := [] |};
     cache_token_eth_value := {| Cachetools.maxsize := 2048; Cachetools.ttl := 60 * 30; Cachetools.items := [] |};
     cache_token_info := ∅;
     events := [] |}.

Definition set_cache_eth_usd_price (c : Cachetools.TTLCache unit (option float)) (s : BalanceService) : BalanceService :=
  {| cache_eth_usd_price := c; cache_token_eth_value := cache_token_eth_value s;
     cache_token_info := cache_token_info s; events := events s |}.

Definition set_cache_token_eth_value (c : Cachetools.TTLCache string float) (s : BalanceService) : BalanceService :=
  {| cache_eth_usd_price := cache_eth_usd_price s; cache_token_eth_value := c;
     cache_token_info := cache_token_info s; events := events s |}.

Definition set_cache_token_info (c : gmap string (option Erc20InfoWithLogo)) (s : BalanceService) : BalanceService :=
  {| cache_eth_usd_price := cache_eth_usd_price s; cache_token_eth_value := cache_token_eth_value s;
     cache_token_info := c; events := events s |}.

Definition add_event (e : Event) (s : BalanceService) : BalanceService :=
  {| cache_eth_usd_price := cache_eth_usd_price s; cache_token_eth_value := cache_token_eth_value s;
     cache_token_info := cache_token_info s; events := events s ++ [e] |}.

(** ** Methods: computations over the world and the service *)

Definition M (A : Type) : Type := World -> BalanceService -> result A * BalanceService.

Definition ret {A} (a : A) : M A := fun _ s => (Ok a, s).

Definition raise {A} (e : exn) : M A := fun _ s => (Raise e, s).

Definition bind {A B} (m : M A) (k : A -> M B) : M B :=
  fun w s =>
    match m w s with
    | (Ok a, s') => k a w s'
    | (Raise e, s') => (Raise e, s')
    end.

Notation "'let*' x ':=' m 'in' k" := (bind m (fun x => k))
  (at level 10, x name, m at level 100, k at level 200).
Notation "m ';;' k" := (bind m (fun _ => k))
  (at level 100, k at level 200, right associativity).

(** A pure Python operation that may raise. *)
Definition lift {A} (r : result A) : M A := fun _ s => (r, s).

(** [try: m except e: handler] *)
Definition try_except {A} (m : M A) (e : exn) (handler : M A) : M A :=
  fun w s =>
    match m w s with
    | (Raise e', s') => if decide (e' = e) then handler w s' else (Raise e', s')
    | r => r
    end.

(** A call to a collaborator: it is recorded, its answer comes from the world. *)
Definition call {A} (e : Event) (answer : World -> A) : M A :=
  fun w s => (Ok (answer w), add_event e s).

Definition logger_warning (message arg : string) : M unit :=
  fun _ s => (Ok tt, add_event (LogWarning message arg) s).

(** [@cachedmethod] over a [TTLCache]: the cache is asked first; on a miss the
    method runs and what it returns is stored (a raised exception stores
    nothing). *)
Definition cachedmethod_ttl {K V} `{EqDecision K}
    (cache : BalanceService -> Cachetools.TTLCache K V)
    (set_cache : Cachetools.TTLCache K V -> BalanceService -> BalanceService)
    (k : K) (method : M V) : M V :=
  fun w s =>
    let '(hit, c) := Cachetools.getitem (now w) (cache s) k in
    let s1 := set_cache c s in
    match hit with
    | Some v => (Ok v, s1)
    | None =>
        match method w s1 with
        | (Ok v, s2) =>
            match Cachetools.setitem (now w) (cache s2) k v with
            | Some c' => (Ok v, set_cache c' s2)
            | None => (Ok v, s2)
            end
        | r => r
        end
    end.

(** [@cachedmethod] over a plain [dict]. *)
Definition cachedmethod_dict {V}
    (cache : BalanceService -> gmap string V)
    (set_cache : gmap string V -> BalanceService -> BalanceService)
    (k : string) (method : M V) : M V :=
  fun w s =>
    match cache s !! k with
    | Some v => (Ok v, s)
    | None =>
        match method w s with
        | (Ok v, s') => (Ok v, set_cache (<[k := v]> (cache s')) s')
        | r => r
        end
    end.

(** ** Sample data for the examples further down *)

Module Sample.

Definition safe : string := "0x5aFE3855358E112B5647B952709E6165e1c1eEEe".
Definition usdc : string := "0xA0b86991c6218b36c1d19D4a2e9Eb0cE3606eB48".
Definition dai : string := "0x6B175474E89094C44Da98b954EedeAC495271d0F".
Definition junk : string := "0xdAC17F958D2ee523a2206206994597C13D831ec7".
Definition weth : string := "0xC02aaA39b223FE8D0A0e5C4F27eAD9083C756Cc2".

(** Stands for [Web3.isChecksumAddress] on the addresses used here. *)
Definition isChecksumAddress (a : string) : bool :=
  bool_decide (a ∈ [safe; usdc; dai; junk; weth]).

(** A Kraken ticker answer, with last trade price [c0]. *)
Definition kraken_ticker (c0 : string) : Response :=
  {| ok := true;
     json := Some (Py.JObj
       [("error", Py.JArr []);
        ("result", Py.JObj
           [("XETHZUSD", Py.JObj
               [("a", Py.JArr [Py.JStr "2000.10000"; Py.JStr "1"; Py.JStr "1.000"]);
                ("c", Py.JArr [Py.JStr c0; Py.JStr "0.05000000"])])])]) |}.

(** A Binance average price answer. *)
Definition binance_avg_price (price : string) : Response :=
  {| ok := true;
     json := Some (Py.JObj [("mins", Py.JInt 5); ("price", Py.JStr price)]) |}.

(** Kraken answers 200 with an empty error list and no [result]. *)
Definition kraken_no_result : Response :=
  {| ok := true; json := Some (Py.JObj [("error", Py.JArr [])]) |}.

(** Kraken answers 200 with an empty [result]. *)
Definition kraken_empty_result : Response :=
  {| ok := true; json := Some (Py.JObj [("error", Py.JArr []); ("result", Py.JObj [])]) |}.

(** Kraken reports an error in its payload. *)
Definition kraken_error : Response :=
  {| ok := true;
     json := Some (Py.JObj [("error", Py.JArr [Py.JStr "EService:Unavailable"])]) |}.

(** Kraken answers 503 with a page that is no JSON. *)
Definition kraken_unavailable : Response := {| ok := false; json := None |}.

(** Kraken answers 502 with a JSON body that has no [error]. *)
Definition kraken_bad_gateway : Response :=
  {| ok := false; json := Some (Py.JObj [("message", Py.JStr "Bad Gateway")]) |}.

(** Binance answers with an HTTP error. *)
Definition binance_error : Response :=
  {| ok := false;
     json := Some (Py.JObj [("code", Py.JInt (-1003)); ("msg", Py.JStr "Too many requests.")]) |}.

(** Binance answers 200 without a [price]. *)
Definition binance_no_price : Response :=
  {| ok := true; json := Some (Py.JObj [("mins", Py.JInt 5)]) |}.

Definition tickers (kraken binance : Response) (url : string) : option Response :=
  if String.eqb url "https://api.kraken.com/0/public/Ticker?pair=ETHUSD" then Some kraken
  else if String.eqb url "https://api.binance.com/api/v3/avgPrice?symbol=ETHUSDT" then Some binance
  else None.

(** The Safe holds 1.5 ETH, 2.5 USDC, 3 DAI, no WETH and 7 units of a
    contract that is no ERC20.  Uniswap prices USDC, no oracle prices the
    rest. *)
Definition world (time : Z) (kraken binance : Response) : World :=
  {| now := time;
     requests_get := tickers kraken binance;
     uniswap_get_price := fun a => if String.eqb a usdc then Some 0.001%float else None;
     kyber_get_price := fun _ => None;
     erc20_get_info := fun a =>
       if String.eqb a usdc then Some {| info_name := "USD Coin"; info_symbol := "USDC"; info_decimals := 6 |}
       else if String.eqb a dai then Some {| info_name := "Dai Stablecoin"; info_symbol := "DAI"; info_decimals := 18 |}
       else if String.eqb a weth then Some {| info_name := "Wrapped Ether"; info_symbol := "WETH"; info_decimals := 18 |}
       else None;
     erc20_tokens_used_by_address := fun _ => [usdc; junk; weth; dai];
     erc20_get_balances := fun _ tokens =>
       {| raw_token_address := None; raw_balance := 1500000000000000000 |} ::
       map (fun a => {| raw_token_address := Some a;
                        raw_balance := if String.eqb a usdc then 2500000
                                       else if String.eqb a junk then 7
                                       else if String.eqb a dai then 3000000000000000000
                                       else 0 |}) tokens |}.

(** The same world once the fourth contract answers as an ERC20 does. *)
Definition repaired (w : World) : World :=
  {| now := now w;
     requests_get := requests_get w;
     uniswap_get_price := uniswap_get_price w;
     kyber_get_price := kyber_get_price w;
     erc20_get_info := fun a =>
       if String.eqb a junk
       then Some {| info_name := "Tether USD"; info_symbol := "USDT"; info_decimals := 6 |}
       else erc20_get_info w a;
     erc20_tokens_used_by_address := erc20_tokens_used_by_address w;
     erc20_get_balances := erc20_get_balances w |}.

(** Both tickers answer. *)
Definition calm (time : Z) : World :=
  world time (kraken_ticker "2000.0") (binance_avg_price "1990.5").

(** Both tickers fail. *)
Definition stormy (time : Z) : World := world time kraken_error binance_error.

End Sample.

Section Service.

(** [float(s)] on a [str]; [None] is [ValueError]. *)
Variable float_of_string : string -> option float.
(** [Web3.isChecksumAddress] *)
Variable isChecksumAddress : string -> bool.

Definition binance_url : string := "https://api.binance.com/api/v3/avgPrice?symbol=ETHUSDT".
Definition kraken_url : string := "https://api.kraken.com/0/public/Ticker?pair=ETHUSD".

(** [requests.get(url)] followed by [response.json()] *)
Definition fetch (url : string) : M (Response * Py.json) :=
  let* r := call (HttpGet url) (fun w => requests_get w url) in
  match r with
  | None => raise RequestException
  | Some response =>
      match json response with
      | None => raise ValueError
      | Some api_json => ret (response, api_json)
      end
  end.

Definition get_eth_usd_price_binance : M float :=
  let* ra := fetch binance_url in
  let '(response, api_json) := ra in
  if negb (ok response) then
    logger_warning "Cannot get price from url=%s" binance_url ;;
    let* msg := lift (Py.get api_json "msg") in
    raise CannotGetEthereumPrice
  else
    try_except
      (let* p := lift (Py.getitem api_json (Py.JStr "price")) in
       let* price := lift (Py.to_float float_of_string p) in
       if negb (Py.float_truthy price) then raise CannotGetEthereumPrice
       else ret price)
      ValueError (raise CannotGetEthereumPrice).

(** The [for] loop returns in its first round; over nothing, the method
    ends without [return] and yields [None]. *)
Definition get_eth_usd_price_kraken : M (option float) :=
  let* ra := fetch kraken_url in
  let '(response, api_json) := ra in
  let* error := lift (Py.get api_json "error") in
  if negb (ok response) || Py.truthy error then
    logger_warning "Cannot get price from url=%s" kraken_url ;;
    let* e := lift (Py.getitem api_json (Py.JStr "error")) in
    raise CannotGetEthereumPrice
  else
    try_except
      (let* result := lift (Py.getitem api_json (Py.JStr "result")) in
       let* tickers := lift (Py.iter result) in
       match tickers with
       | [] => ret None
       | new_ticker :: _ =>
           let* t := lift (Py.getitem result new_ticker) in
           let* c := lift (Py.getitem t (Py.JStr "c")) in
           let* c0 := lift (Py.getitem c (Py.JInt 0)) in
           let* price := lift (Py.to_float float_of_string c0) in
           if negb (Py.float_truthy price) then raise CannotGetEthereumPrice
           else ret (Some price)
       end)
      ValueError (raise CannotGetEthereumPrice).

(** The body of [get_eth_usd_price], under the decorator. *)
Definition get_eth_usd_price_uncached : M (option float) :=
  try_except get_eth_usd_price_kraken
    CannotGetEthereumPrice
    (let* price := get_eth_usd_price_binance in ret (Some price)).

Definition get_eth_usd_price : M (option float) :=
  cachedmethod_ttl cache_eth_usd_price set_cache_eth_usd_price tt
    get_eth_usd_price_uncached.

(** The body of [get_token_eth_value], under the decorator. *)
Definition get_token_eth_value_uncached (token_address : string) : M float :=
  let* p := call (UniswapGetPrice token_address) (fun w => uniswap_get_price w token_address) in
  match p with
  | Some price => ret price
  | None =>
      logger_warning "Cannot get eth value for token-address=%s on uniswap, trying Kyber" token_address ;;
      let* p := call (KyberGetPrice token_address) (fun w => kyber_get_price w token_address) in
      match p with
      | Some price => ret price
      | None =>
          logger_warning "Cannot get eth value for token-address=%s from Kyber" token_address ;;
          ret PrimFloat.zero
      end
  end.

Definition get_token_eth_value (token_address : string) : M float :=
  cachedmethod_ttl cache_token_eth_value set_cache_token_eth_value token_address
    (get_token_eth_value_uncached token_address).

(** The body of [get_token_info], under the decorator. *)
Definition get_token_info_uncached (token_address : string) : M (option Erc20InfoWithLogo) :=
  let* i := call (Erc20GetInfo token_address) (fun w => erc20_get_info w token_address) in
  match i with
  | Some erc20_info =>
      ret (Some (new_Erc20InfoWithLogo token_address (info_name erc20_info)
                   (info_symbol erc20_info) (info_decimals erc20_info)))
  | None =>
      logger_warning "Cannot get token info for token-address=%s" token_address ;;
      ret None
  end.

Definition get_token_info (token_address : string) : M (option Erc20InfoWithLogo) :=
  cachedmethod_dict cache_token_info set_cache_token_info token_address
    (get_token_info_uncached token_address).

(** The [for] loop of [get_balances]; [balances] is the list built so far. *)
Fixpoint get_balances_loop (raw_balances : list RawBalance) (balances : list Balance)
    : M (list Balance) :=
  match raw_balances with
  | [] => ret balances
  | raw :: rest =>
      match raw_token_address raw with
      | Some a =>
          if String.eqb a "" then (* falsy address: Ether *)
            get_balances_loop rest
              (balances ++ [{| token_address := Some a; token := None; balance := raw_balance raw |}])
          else if 0 <? raw_balance raw then
            let* info := get_token_info a in
            match info with
            | None => get_balances_loop rest balances (* cannot be queried *)
            | Some i =>
                get_balances_loop rest
                  (balances ++ [{| token_address := Some a; token := Some i; balance := raw_balance raw |}])
            end
          else get_balances_loop rest balances
      | None => (* Ether *)
          get_balances_loop rest
            (balances ++ [{| token_address := None; token := None; balance := raw_balance raw |}])
      end
  end.

Definition get_balances (safe_address : string) : M (list Balance) :=
  if negb (isChecksumAddress safe_address) then raise AssertionError
  else
    let* erc20_addresses :=
      call (Erc20TokensUsedByAddress safe_address)
           (fun w => erc20_tokens_used_by_address w safe_address) in
    let* raw_balances :=
      call (Erc20GetBalances safe_address erc20_addresses)
           (fun w => erc20_get_balances w safe_address erc20_addresses) in
    get_balances_loop raw_balances [].

(** The USD value [get_usd_balances] gives one balance, before rounding. *)
Definition get_balance_usd (eth_value : option float) (b : Balance) : M float :=
  if negb (Py.str_truthy (token_address b)) then (* Ether *)
    let* x := lift (Py.int_truediv (balance b) (10 ^ 18)) in
    lift (Py.mul eth_value x)
  else
    let* token_to_eth_price := get_token_eth_value (default "" (token_address b)) in
    if Py.float_truthy token_to_eth_price then
      match token b with
      | None => raise AttributeError
      | Some t =>
          let* balance_with_decimals :=
            lift (Py.int_truediv (balance b) (10 ^ Z.of_N (decimals t))) in
          let* x := lift (Py.mul eth_value token_to_eth_price) in
          ret (PrimFloat.mul x balance_with_decimals)
      end
    else ret PrimFloat.zero.

(** The [for] loop of [get_usd_balances]. *)
Fixpoint get_usd_balances_loop (eth_value : option float) (balances : list Balance)
    (balances_with_usd : list BalanceWithUsd) : M (list BalanceWithUsd) :=
  match balances with
  | [] => ret balances_with_usd
  | b :: rest =>
      let* usd := get_balance_usd eth_value b in
      let* rounded := lift (Py.round usd 4) in
      get_usd_balances_loop eth_value rest
        (balances_with_usd ++
           [{| usd_token_address := token_address b; usd_token := token b;
               usd_balance := balance b; balance_usd := rounded |}])
  end.

Definition get_usd_balances (safe_address : string) : M (list BalanceWithUsd) :=
  let* balances := get_balances safe_address in
  let* eth_value := get_eth_usd_price in
  get_usd_balances_loop eth_value balances [].


(** ** The vocabulary of the properties *)

(** The events a call added to the log. *)
Definition new_events (s s' : BalanceService) : list Event :=
  drop (length (events s)) (events s').


(** The caches are set up as [__init__] does. *)
Definition configured (s : BalanceService) : Prop :=
  Cachetools.maxsize (cache_eth_usd_price s) = 2048%nat /\
  Cachetools.ttl (cache_eth_usd_price s) = 1800 /\
  Cachetools.maxsize (cache_token_eth_value s) = 2048%nat /\
  Cachetools.ttl (cache_token_eth_value s) = 1800.

(** The live value a TTL cache holds for a key, if any. *)
Definition cached {K V} `{EqDecision K} (time : Z) (c : Cachetools.TTLCache K V) (k : K)
    : option V :=
  fst (Cachetools.getitem time c k).

(** The time up to which a TTL cache answers for a key. *)
Definition expiry {K V} `{EqDecision K} (c : Cachetools.TTLCache K V) (k : K) : option Z :=
  match Cachetools.find_key k (Cachetools.items c) with
  | Some it => Some (snd (snd it))
  | None => None
  end.

(** The price chain in the words of the specification: the primary oracle's
    price when it has one, otherwise the secondary's, otherwise 0. *)
Definition chain_price (w : World) (token_address : string) : float :=
  match uniswap_get_price w token_address with
  | Some price => price
  | None =>
      match kyber_get_price w token_address with
      | Some price => price
      | None => PrimFloat.zero
      end
  end.

(** Metadata resolution as a function of the world and of the metadata
    cache: the cached outcome if there is one, the node's answer otherwise. *)
Definition resolve (w : World) (cache : gmap string (option Erc20InfoWithLogo))
    (token_address : string) : option Erc20InfoWithLogo :=
  match cache !! token_address with
  | Some outcome => outcome
  | None =>
      match erc20_get_info w token_address with
      | Some i => Some (new_Erc20InfoWithLogo token_address (info_name i) (info_symbol i) (info_decimals i))
      | None => None
      end
  end.

(** The filter of [get_balances] in the words of the specification. *)
Definition keep_balance (metadata : string -> option Erc20InfoWithLogo) (raw : RawBalance)
    : option Balance :=
  if negb (Py.str_truthy (raw_token_address raw)) then
    Some {| token_address := raw_token_address raw; token := None; balance := raw_balance raw |}
  else if raw_balance raw <=? 0 then None
  else
    match metadata (default "" (raw_token_address raw)) with
    | None => None
    | Some m =>
        Some {| token_address := raw_token_address raw; token := Some m; balance := raw_balance raw |}
    end.

Definition with_usd (b : Balance) (usd : float) : BalanceWithUsd :=
  {| usd_token_address := token_address b; usd_token := token b;
     usd_balance := balance b; balance_usd := usd |}.

(** The USD amount in the words of the specification: the base price, times
    the token's price in the base currency when the balance is a token's,
    times the raw amount scaled by the decimal precision, rounded to 4
    fractional digits. *)
Definition usd_amount (base_price_usd : float) (token_price_base : option float)
    (raw_amount : Z) (decimal_precision : Z) : result float :=
  result_bind (Py.int_truediv raw_amount (10 ^ decimal_precision)) (fun scaled =>
    Py.round
      match token_price_base with
      | None => PrimFloat.mul base_price_usd scaled
      | Some price => PrimFloat.mul (PrimFloat.mul base_price_usd price) scaled
      end 4).

(** The valuation of one balance in the words of the specification; for a
    token the price is the one the price chain gives when it is asked, in
    the state the service is in at that moment. *)
Inductive valued (eth_value : option float) (w : World)
    : BalanceService -> Balance -> BalanceWithUsd -> BalanceService -> Prop :=
| valued_base s b base_price_usd usd :
    Py.str_truthy (token_address b) = false ->
    eth_value = Some base_price_usd ->
    usd_amount base_price_usd None (balance b) 18 = Ok usd ->
    valued eth_value w s b (with_usd b usd) s
| valued_token s s' b a token_price_base base_price_usd t usd :
    token_address b = Some a ->
    Py.str_truthy (token_address b) = true ->
    get_token_eth_value a w s = (Ok token_price_base, s') ->
    Py.float_truthy token_price_base = true ->
    eth_value = Some base_price_usd ->
    token b = Some t ->
    usd_amount base_price_usd (Some token_price_base) (balance b) (Z.of_N (decimals t)) = Ok usd ->
    valued eth_value w s b (with_usd b usd) s'
| valued_zero s s' b a token_price_base :
    token_address b = Some a ->
    Py.str_truthy (token_address b) = true ->
    get_token_eth_value a w s = (Ok token_price_base, s') ->
    Py.float_truthy token_price_base = false ->
    valued eth_value w s b (with_usd b PrimFloat.zero) s'.

(** The valuation of a sequence of balances, one after the other. *)
Inductive valued_all (eth_value : option float) (w : World)
    : BalanceService -> list Balance -> list BalanceWithUsd -> BalanceService -> Prop :=
| valued_nil s : valued_all eth_value w s [] [] s
| valued_cons s s1 s' b o bs os :
    valued eth_value w s b o s1 ->
    valued_all eth_value w s1 bs os s' ->
    valued_all eth_value w s (b :: bs) (o :: os) s'.

(** The service after the token prices of [balances] have been asked one
    after the other, as the loop of [get_usd_balances] asks them: with the
    balances before an entry, the state in which the loop values that
    entry. *)
Fixpoint valuation_state (w : World) (s : BalanceService) (balances : list Balance)
    : BalanceService :=
  match balances with
  | [] => s
  | b :: rest =>
      valuation_state w
        (if Py.str_truthy (token_address b)
         then snd (get_token_eth_value (default "" (token_address b)) w s)
         else s)
        rest
  end.

(** Kraken quotes [price]: its answer is ok and reports no error, and
    [price] is the float of the last trade price of the first ticker of its
    result. *)
Definition kraken_quotes (w : World) (price : float) : Prop :=
  exists response api_json error result new_ticker rest t c c0,
    requests_get w kraken_url = Some response /\
    ok response = true /\
    json response = Some api_json /\
    Py.get api_json "error" = Ok error /\
    Py.truthy error = false /\
    Py.getitem api_json (Py.JStr "result") = Ok result /\
    Py.iter result = Ok (new_ticker :: rest) /\
    Py.getitem result new_ticker = Ok t /\
    Py.getitem t (Py.JStr "c") = Ok c /\
    Py.getitem c (Py.JInt 0) = Ok c0 /\
    Py.to_float float_of_string c0 = Ok price.

(** Binance quotes [price]: its answer is ok and [price] is the float of
    its [price] field. *)
Definition binance_quotes (w : World) (price : float) : Prop :=
  exists response api_json p,
    requests_get w binance_url = Some response /\
    ok response = true /\
    json response = Some api_json /\
    Py.getitem api_json (Py.JStr "price") = Ok p /\
    Py.to_float float_of_string p = Ok price.

(** [m] takes every state to one that is [R]-related to it. *)
Definition preserves {A} (R : BalanceService -> BalanceService -> Prop) (m : M A) : Prop :=
  forall w s, R s (snd (m w s)).

(** The log only grows, by events that satisfy [allowed]. *)
Definition logs (allowed : Event -> Prop) (s s' : BalanceService) : Prop :=
  exists evs, events s' = events s ++ evs /\ Forall allowed evs.

(** No cache is touched. *)
Definition same_caches (s s' : BalanceService) : Prop :=
  cache_eth_usd_price s' = cache_eth_usd_price s /\
  cache_token_eth_value s' = cache_token_eth_value s /\
  cache_token_info s' = cache_token_info s.

(** The TTL caches keep their size bound and their time to live. *)
Definition same_config (s s' : BalanceService) : Prop :=
  Cachetools.maxsize (cache_eth_usd_price s') = Cachetools.maxsize (cache_eth_usd_price s) /\
  Cachetools.ttl (cache_eth_usd_price s') = Cachetools.ttl (cache_eth_usd_price s) /\
  Cachetools.maxsize (cache_token_eth_value s') = Cachetools.maxsize (cache_token_eth_value s) /\
  Cachetools.ttl (cache_token_eth_value s') = Cachetools.ttl (cache_token_eth_value s).

(** An event other than a call to a ticker. *)
Definition not_ticker (ev : Event) : Prop :=
  match ev with
  | HttpGet _ => False
  | _ => True
  end.

(** Every metadata the cache holds is filed under its own address and
    carries the logo of that address. *)
Definition metadata_matches (cache : gmap string (option Erc20InfoWithLogo)) : Prop :=
  forall a i, cache !! a = Some (Some i) ->
    address i = a /\ logo_uri i = get_erc20_logo_uri a.

(** The TTL caches hold no more items than their size bound. *)
Definition within_bounds (s : BalanceService) : Prop :=
  (length (Cachetools.items (cache_eth_usd_price s)) <= Cachetools.maxsize (cache_eth_usd_price s))%nat /\
  (length (Cachetools.items (cache_token_eth_value s)) <= Cachetools.maxsize (cache_token_eth_value s))%nat.

(** The raw balance is a token's, with a positive amount: the one case in
    which [get_balances] asks for metadata. *)
Definition needs_token_info (raw : RawBalance) : bool :=
  Py.str_truthy (raw_token_address raw) && (0 <? raw_balance raw).

(** A record of the service's logger. *)
Definition is_warning (ev : Event) : Prop :=
  match ev with
  | LogWarning _ _ => True
  | _ => False
  end.

(** What the method answers depends on the world only, not on the state
    of the service. *)
Definition stateless {A} (m : M A) : Prop :=
  forall w s s', fst (m w s) = fst (m w s').

(** The requests one call makes to the ticker sources: none, one to
    Kraken, or one to Kraken and then one to Binance; only log lines come
    between and after them. *)
Inductive ticker_requests : list Event -> Prop :=
| ticker_requests_none : ticker_requests []
| ticker_requests_kraken rest :
    Forall is_warning rest -> ticker_requests (HttpGet kraken_url :: rest)
| ticker_requests_both rest rest' :
    Forall is_warning rest -> Forall is_warning rest' ->
    ticker_requests (HttpGet kraken_url :: rest ++ HttpGet binance_url :: rest').

(** ** Facts about the TTL cache *)

Section TTLFacts.
Context {K V : Type} `{EqDecision K}.
Implicit Types (c : Cachetools.TTLCache K V) (k : K) (it : K * (V * Z))
  (l : list (K * (V * Z))).

Lemma find_key_Some k l it :
  Cachetools.find_key k l = Some it -> fst it = k.
Proof.
  unfold Cachetools.find_key. intros Hf.
  apply find_some in Hf as [_ Hk]. unfold Cachetools.has_key in Hk.
  by apply bool_decide_eq_true in Hk.
Qed.

Lemma find_key_remove_key k l :
  Cachetools.find_key k (Cachetools.remove_key k l) = None.
Proof.
  unfold Cachetools.find_key, Cachetools.remove_key.
  induction l as [|x l IH]; simpl; [done|].
  destruct (Cachetools.has_key k x) eqn:E; simpl; [done|]. by rewrite E.
Qed.

Lemma has_key_true k it : fst it = k -> Cachetools.has_key k it = true.
Proof. intros. unfold Cachetools.has_key. by apply bool_decide_eq_true_2. Qed.

Lemma find_key_moved k l it :
  fst it = k ->
  Cachetools.find_key k (Cachetools.remove_key k l ++ [it]) = Some it.
Proof.
  intros Hk. pose proof (find_key_remove_key k l) as Hn.
  unfold Cachetools.find_key in *.
  induction (Cachetools.remove_key k l) as [|x r IH].
  - cbn [app List.find]. by rewrite has_key_true.
  - cbn [app List.find] in *. destruct (Cachetools.has_key k x); [done|]. by apply IH.
Qed.

Lemma remove_key_moved k l it :
  fst it = k ->
  Cachetools.remove_key k (Cachetools.remove_key k l ++ [it]) = Cachetools.remove_key k l.
Proof.
  intros Hk. unfold Cachetools.remove_key.
  rewrite List.filter_app. cbn [List.filter].
  rewrite (has_key_true k it) by done. cbn [negb].
  rewrite app_nil_r.
  induction l as [|x l IH]; [done|].
  cbn [List.filter].
  destruct (negb (Cachetools.has_key k x)) eqn:E; [|done].
  cbn [List.filter]. by rewrite E, IH.
Qed.

(** What a store leaves in the cache. *)
Lemma setitem_stored time c k v c' :
  Cachetools.setitem time c k v = Some c' ->
  exists rest,
    c' = Cachetools.with_items c (Cachetools.remove_key k rest ++ [(k, (v, time + Cachetools.ttl c))]).
Proof.
  unfold Cachetools.setitem. destruct (_ <? _)%nat; [done|].
  intros [= <-]. eauto.
Qed.

Lemma setitem_Some time c k v :
  (1 <= Cachetools.maxsize c)%nat -> is_Some (Cachetools.setitem time c k v).
Proof.
  intros Hm. unfold Cachetools.setitem.
  destruct (Nat.ltb_spec (Cachetools.maxsize c) 1); [lia|]. eauto.
Qed.

(** A stored value is the one the cache answers with until it expires:
    [expired] holds from [time + ttl] on, not before. *)
Lemma getitem_setitem time time' c k v c' :
  Cachetools.setitem time c k v = Some c' ->
  Cachetools.getitem time' c' k =
    (if time + Cachetools.ttl c <? time' then None else Some v, c').
Proof.
  intros Hs. apply setitem_stored in Hs as [rest ->].
  unfold Cachetools.getitem. simpl.
  rewrite find_key_moved by done. simpl.
  rewrite remove_key_moved by done. done.
Qed.

End TTLFacts.

(** ** How a method moves the service from one state to the next *)

#[local] Instance logs_refl allowed : Reflexive (logs allowed).
Proof. intros s. exists []. by rewrite app_nil_r. Qed.

#[local] Instance logs_trans allowed : Transitive (logs allowed).
Proof.
  intros s1 s2 s3 (e1 & H1 & F1) (e2 & H2 & F2). exists (e1 ++ e2).
  split; [by rewrite H2, H1, app_assoc | by apply Forall_app].
Qed.

#[local] Instance same_caches_refl : Reflexive same_caches.
Proof. by intros s. Qed.

#[local] Instance same_caches_trans : Transitive same_caches.
Proof. intros s1 s2 s3 (?&?&?) (?&?&?). repeat split; congruence. Qed.

#[local] Instance same_config_refl : Reflexive same_config.
Proof. by intros s. Qed.

#[local] Instance same_config_trans : Transitive same_config.
Proof. intros s1 s2 s3 (?&?&?&?) (?&?&?&?). repeat split; congruence. Qed.

Section Preserves.
Context (R : BalanceService -> BalanceService -> Prop) `{!Reflexive R} `{!Transitive R}.

Lemma preserves_ret {A} (a : A) : preserves R (ret a).
Proof. intros w s. simpl. reflexivity. Qed.

Lemma preserves_raise {A} e : preserves R (@raise A e).
Proof. intros w s. simpl. reflexivity. Qed.

Lemma preserves_lift {A} (r : result A) : preserves R (lift r).
Proof. intros w s. simpl. reflexivity. Qed.

Lemma preserves_bind {A B} (m : M A) (k : A -> M B) :
  preserves R m -> (forall a, preserves R (k a)) -> preserves R (bind m k).
Proof.
  intros Hm Hk w s. unfold bind. specialize (Hm w s).
  destruct (m w s) as [[a|e] s1]; simpl in *; [|done].
  etransitivity; [exact Hm | apply Hk].
Qed.

Lemma preserves_try_except {A} (m : M A) e (handler : M A) :
  preserves R m -> preserves R handler -> preserves R (try_except m e handler).
Proof.
  intros Hm Hh w s. unfold try_except. specialize (Hm w s).
  destruct (m w s) as [[a|e'] s1]; simpl in *; [done|].
  destruct (decide (e' = e)); [|done].
  etransitivity; [exact Hm | apply Hh].
Qed.

Lemma preserves_call {A} ev (answer : World -> A) :
  (forall s, R s (add_event ev s)) -> preserves R (call ev answer).
Proof. intros H w s. apply H. Qed.

Lemma preserves_logger_warning message arg :
  (forall s, R s (add_event (LogWarning message arg) s)) ->
  preserves R (logger_warning message arg).
Proof. intros H w s. apply H. Qed.

Lemma preserves_cachedmethod_ttl {K V} `{EqDecision K}
    (cache : BalanceService -> Cachetools.TTLCache K V) set_cache (k : K) (method : M V) :
  (forall c s, Cachetools.maxsize c = Cachetools.maxsize (cache s) ->
               Cachetools.ttl c = Cachetools.ttl (cache s) -> R s (set_cache c s)) ->
  preserves R method ->
  preserves R (cachedmethod_ttl cache set_cache k method).
Proof.
  intros Hset Hm w s. unfold cachedmethod_ttl.
  assert (R s (set_cache (snd (Cachetools.getitem (now w) (cache s) k)) s)) as H1.
  { apply Hset; unfold Cachetools.getitem;
      destruct (Cachetools.find_key k (Cachetools.items (cache s))); done. }
  destruct (Cachetools.getitem (now w) (cache s) k) as [[v|] c]; simpl in *; [done|].
  specialize (Hm w (set_cache c s)).
  destruct (method w (set_cache c s)) as [[v|e] s2]; simpl in *;
    [|by etransitivity].
  destruct (Cachetools.setitem (now w) (cache s2) k v) as [c'|] eqn:Hs; simpl;
    [|by etransitivity].
  etransitivity; [exact H1|]. etransitivity; [exact Hm|].
  apply setitem_stored in Hs as [rest ->]. by apply Hset.
Qed.

Lemma preserves_cachedmethod_dict {V}
    (cache : BalanceService -> gmap string V) set_cache (k : string) (method : M V) :
  (forall c s, R s (set_cache c s)) ->
  preserves R method ->
  preserves R (cachedmethod_dict cache set_cache k method).
Proof.
  intros Hset Hm w s. unfold cachedmethod_dict.
  destruct (cache s !! k); simpl; [reflexivity|].
  specialize (Hm w s). destruct (method w s) as [[v|e] s2]; simpl in *; [|done].
  etransitivity; [exact Hm | apply Hset].
Qed.

End Preserves.

Ltac preserves_step :=
  first
    [ apply preserves_ret; try typeclasses eauto
    | apply preserves_raise; try typeclasses eauto
    | apply preserves_lift; try typeclasses eauto
    | apply preserves_bind; [try typeclasses eauto | | intros ?]
    | apply preserves_try_except; [try typeclasses eauto | |]
    | apply preserves_call; intros ?
    | apply preserves_logger_warning; intros ?
    | match goal with
      | |- preserves _ (match ?x with _ => _ end) => destruct x
      end ].

Ltac preserves_tac := repeat preserves_step.

Lemma same_caches_add_event ev s : same_caches s (add_event ev s).
Proof. done. Qed.

Lemma same_config_add_event ev s : same_config s (add_event ev s).
Proof. done. Qed.

Lemma logs_add_event (allowed : Event -> Prop) ev s :
  allowed ev -> logs allowed s (add_event ev s).
Proof. intros H. exists [ev]. split; [done | by constructor]. Qed.

(** The bodies under the decorators leave the caches alone. *)
Lemma fetch_same_caches url : preserves same_caches (fetch url).
Proof. unfold fetch. preserves_tac; apply same_caches_add_event. Qed.

Lemma get_eth_usd_price_binance_same_caches :
  preserves same_caches get_eth_usd_price_binance.
Proof.
  unfold get_eth_usd_price_binance.
  preserves_tac; try apply same_caches_add_event; apply fetch_same_caches.
Qed.

Lemma get_eth_usd_price_kraken_same_caches :
  preserves same_caches get_eth_usd_price_kraken.
Proof.
  unfold get_eth_usd_price_kraken.
  preserves_tac; try apply same_caches_add_event; apply fetch_same_caches.
Qed.

Lemma get_eth_usd_price_uncached_same_caches :
  preserves same_caches get_eth_usd_price_uncached.
Proof.
  unfold get_eth_usd_price_uncached.
  preserves_tac; apply same_caches_add_event.
Qed.

Lemma get_token_eth_value_uncached_same_caches a :
  preserves same_caches (get_token_eth_value_uncached a).
Proof.
  unfold get_token_eth_value_uncached.
  preserves_tac; apply same_caches_add_event.
Qed.

Lemma get_token_info_uncached_same_caches a :
  preserves same_caches (get_token_info_uncached a).
Proof.
  unfold get_token_info_uncached.
  preserves_tac; apply same_caches_add_event.
Qed.

(** ** A method under [@cachedmethod] with a [TTLCache] *)

Section CachedTTL.
Context {K V : Type} `{EqDecision K}.
Context (cache : BalanceService -> Cachetools.TTLCache K V).
Context (set_cache : Cachetools.TTLCache K V -> BalanceService -> BalanceService).
Hypothesis cache_set : forall c s, cache (set_cache c s) = c.
Hypothesis set_set : forall c c' s, set_cache c (set_cache c' s) = set_cache c s.

Lemma getitem_config time (c : Cachetools.TTLCache K V) k :
  Cachetools.maxsize (snd (Cachetools.getitem time c k)) = Cachetools.maxsize c /\
  Cachetools.ttl (snd (Cachetools.getitem time c k)) = Cachetools.ttl c.
Proof.
  unfold Cachetools.getitem. by destruct (Cachetools.find_key k (Cachetools.items c)).
Qed.

Lemma cached_Some time (c : Cachetools.TTLCache K V) k v :
  cached time c k = Some v ->
  exists e, Cachetools.find_key k (Cachetools.items c) = Some (k, (v, e)) /\ time <= e.
Proof.
  unfold cached, Cachetools.getitem.
  destruct (Cachetools.find_key k (Cachetools.items c)) as [[k' [v' e]]|] eqn:Hf; [|done].
  apply find_key_Some in Hf as Hk. simpl in *. subst k'.
  unfold Cachetools.expired. simpl.
  destruct (Z.ltb_spec e time); [done|]. intros [= ->]. eauto.
Qed.

Lemma cachedmethod_ttl_hit k (method : M V) w s v :
  cached (now w) (cache s) k = Some v ->
  cachedmethod_ttl cache set_cache k method w s =
    (Ok v, set_cache (snd (Cachetools.getitem (now w) (cache s) k)) s).
Proof.
  unfold cached, cachedmethod_ttl.
  destruct (Cachetools.getitem (now w) (cache s) k) as [hit c]. simpl.
  by intros ->.
Qed.

Lemma cachedmethod_ttl_miss k (method : M V) w s :
  cached (now w) (cache s) k = None ->
  cachedmethod_ttl cache set_cache k method w s =
    match method w (set_cache (snd (Cachetools.getitem (now w) (cache s) k)) s) with
    | (Ok v, s2) =>
        (Ok v, match Cachetools.setitem (now w) (cache s2) k v with
               | Some c' => set_cache c' s2
               | None => s2
               end)
    | r => r
    end.
Proof.
  unfold cached, cachedmethod_ttl.
  destruct (Cachetools.getitem (now w) (cache s) k) as [hit c]. simpl.
  intros ->. destruct (method w (set_cache c s)) as [[v|e] s2]; [|done].
  by destruct (Cachetools.setitem (now w) (cache s2) k v).
Qed.

(** The value a call returns is in the cache afterwards, and until it
    expires every further call returns it and leaves the service as it is,
    whatever the method would compute then. *)
Lemma cachedmethod_ttl_again k (method : M V) w s v s1 :
  (forall w s, cache (snd (method w s)) = cache s) ->
  (1 <= Cachetools.maxsize (cache s))%nat ->
  0 <= Cachetools.ttl (cache s) ->
  cachedmethod_ttl cache set_cache k method w s = (Ok v, s1) ->
  exists e,
    expiry (cache s1) k = Some e /\
    now w <= e /\
    (cached (now w) (cache s) k = None -> e = now w + Cachetools.ttl (cache s)) /\
    forall (method' : M V) w',
      now w' <= e -> cachedmethod_ttl cache set_cache k method' w' s1 = (Ok v, s1).
Proof.
  intros Hframe Hsize Httl Hcall.
  destruct (cached (now w) (cache s) k) as [v0|] eqn:Hc.
  - rewrite (cachedmethod_ttl_hit _ _ _ _ _ Hc) in Hcall.
    injection Hcall as <- <-.
    apply cached_Some in Hc as (e & Hf & He). exists e.
    assert (Cachetools.getitem (now w) (cache s) k =
            (Some v0, Cachetools.with_items (cache s)
               (Cachetools.remove_key k (Cachetools.items (cache s)) ++ [(k, (v0, e))]))) as Hg.
    { unfold Cachetools.getitem. rewrite Hf. unfold Cachetools.expired. simpl.
      destruct (Z.ltb_spec e (now w)); [lia|done]. }
    rewrite Hg. simpl. split; [|split; [done|split; [done|]]].
    + unfold expiry. rewrite cache_set. simpl. by rewrite find_key_moved.
    + intros method' w' Hw'.
      assert (cached (now w') (cache (set_cache (Cachetools.with_items (cache s)
               (Cachetools.remove_key k (Cachetools.items (cache s)) ++ [(k, (v0, e))])) s)) k
              = Some v0) as Hc'.
      { rewrite cache_set. unfold cached, Cachetools.getitem. simpl.
        rewrite find_key_moved by done. unfold Cachetools.expired. simpl.
        destruct (Z.ltb_spec e (now w')); [lia|done]. }
      rewrite (cachedmethod_ttl_hit _ _ _ _ _ Hc'). f_equal.
      rewrite cache_set, set_set. f_equal.
      unfold Cachetools.getitem. simpl. rewrite find_key_moved by done. simpl.
      by rewrite remove_key_moved.
  - rewrite (cachedmethod_ttl_miss _ _ _ _ Hc) in Hcall.
    set (s0 := set_cache (snd (Cachetools.getitem (now w) (cache s) k)) s) in *.
    pose proof (Hframe w s0) as Hfr.
    destruct (method w s0) as [[v'|ex] s2]; [|done]. simpl in Hfr.
    injection Hcall as -> <-.
    assert (cache s2 = snd (Cachetools.getitem (now w) (cache s) k)) as Hc2.
    { rewrite Hfr. unfold s0. by rewrite cache_set. }
    destruct (getitem_config (now w) (cache s) k) as [Hm Ht].
    destruct (setitem_Some (now w) (cache s2) k v) as [c' Hs].
    { rewrite Hc2, Hm. done. }
    rewrite Hs. exists (now w + Cachetools.ttl (cache s)).
    pose proof (fun time' => getitem_setitem _ time' _ _ _ _ Hs) as Hgs.
    rewrite Hc2, Ht in Hgs.
    split; [|split; [lia|split; [done|]]].
    + unfold expiry. rewrite cache_set.
      apply setitem_stored in Hs as [rest ->]. simpl.
      rewrite find_key_moved by done. simpl. by rewrite Hc2, Ht.
    + intros method' w' Hw'.
      assert (cached (now w') (cache (set_cache c' s2)) k = Some v) as Hc'.
      { rewrite cache_set. unfold cached. rewrite Hgs. simpl.
        destruct (Z.ltb_spec (now w + Cachetools.ttl (cache s)) (now w')); [lia|done]. }
      rewrite (cachedmethod_ttl_hit _ _ _ _ _ Hc'). f_equal.
      rewrite cache_set, Hgs. simpl. by rewrite set_set.
Qed.

End CachedTTL.

(** ** Token metadata *)

Lemma get_token_info_uncached_result a w s :
  exists s',
    get_token_info_uncached a w s = (Ok (resolve w ∅ a), s') /\ same_caches s s'.
Proof.
  pose proof (get_token_info_uncached_same_caches a w s) as Hc.
  unfold get_token_info_uncached, resolve, bind, call, logger_warning, ret in *.
  rewrite lookup_empty. simpl in *.
  destruct (erc20_get_info w a); simpl in *; eauto.
Qed.

(** [get_token_info] answers with [resolve], and stores its answer. *)
Lemma get_token_info_result a w s :
  exists s',
    get_token_info a w s = (Ok (resolve w (cache_token_info s) a), s') /\
    cache_token_info s' = <[a := resolve w (cache_token_info s) a]> (cache_token_info s) /\
    cache_eth_usd_price s' = cache_eth_usd_price s /\
    cache_token_eth_value s' = cache_token_eth_value s.
Proof.
  unfold get_token_info, cachedmethod_dict, resolve.
  destruct (cache_token_info s !! a) as [r|] eqn:Hl.
  - exists s. by rewrite insert_id.
  - destruct (get_token_info_uncached_result a w s) as (s' & -> & (H1 & H2 & H3)).
    unfold resolve. rewrite lookup_empty.
    eexists. split; [reflexivity|]. simpl. by rewrite H3.
Qed.

Lemma resolve_insert w (cache : gmap string (option Erc20InfoWithLogo)) a a' :
  resolve w (<[a := resolve w cache a]> cache) a' = resolve w cache a'.
Proof.
  unfold resolve at 1 3. destruct (decide (a = a')) as [->|Hne].
  - rewrite lookup_insert_eq. unfold resolve. by destruct (cache !! a').
  - by rewrite lookup_insert_ne.
Qed.

Lemma keep_balance_ext f g raw :
  (forall a, f a = g a) -> keep_balance f raw = keep_balance g raw.
Proof. intros H. unfold keep_balance. by rewrite H. Qed.

Lemma omap_keep_balance_ext f g (raw : list RawBalance) :
  (forall a, f a = g a) -> omap (keep_balance f) raw = omap (keep_balance g) raw.
Proof.
  intros H. induction raw as [|r raw IH]; [done|].
  cbn [omap list_omap]. by rewrite IH, (keep_balance_ext f g r H).
Qed.

(** ** [get_balances] *)

(** The loop returns what the filter keeps, in the order of the raw
    balances, after what was there before. *)
Lemma get_balances_loop_result w raw : forall balances s,
  exists s',
    get_balances_loop raw balances w s =
      (Ok (balances ++ omap (keep_balance (resolve w (cache_token_info s))) raw), s') /\
    (forall a, resolve w (cache_token_info s') a = resolve w (cache_token_info s) a).
Proof.
  induction raw as [|r raw IH]; intros balances s.
  - exists s. simpl. by rewrite app_nil_r.
  - cbn [get_balances_loop omap list_omap]. unfold keep_balance at 1.
    destruct (raw_token_address r) as [a|] eqn:Ha; simpl.
    + destruct (String.eqb a "") eqn:Hempty; simpl.
      * destruct (IH (balances ++ [{| token_address := Some a; token := None; balance := raw_balance r |}]) s)
          as (s' & -> & Hres).
        exists s'. by rewrite <- app_assoc.
      * destruct (Z.ltb_spec 0 (raw_balance r)) as [Hpos|Hneg].
        -- destruct (Z.leb_spec (raw_balance r) 0); [lia|].
           unfold bind.
           destruct (get_token_info_result a w s) as (s1 & -> & Hc & _).
           assert (forall a', resolve w (cache_token_info s1) a' = resolve w (cache_token_info s) a')
             as Hsame by (intros a'; rewrite Hc; apply resolve_insert).
           destruct (resolve w (cache_token_info s) a) as [i|] eqn:Hr.
           ++ destruct (IH (balances ++ [{| token_address := Some a; token := Some i; balance := raw_balance r |}]) s1)
                as (s' & -> & Hres).
              exists s'. split; [|intros; by rewrite Hres].
              rewrite <- app_assoc. simpl.
              by rewrite (omap_keep_balance_ext _ _ raw Hsame).
           ++ destruct (IH balances s1) as (s' & -> & Hres).
              exists s'. split; [|intros; by rewrite Hres].
              by rewrite (omap_keep_balance_ext _ _ raw Hsame).
        -- destruct (Z.leb_spec (raw_balance r) 0); [|lia].
           destruct (IH balances s) as (s' & -> & Hres). by exists s'.
    + destruct (IH (balances ++ [{| token_address := None; token := None; balance := raw_balance r |}]) s)
        as (s' & -> & Hres).
      exists s'. by rewrite <- app_assoc.
Qed.

Lemma get_balances_valid a w s :
  isChecksumAddress a = true ->
  exists s',
    get_balances a w s =
      (Ok (omap (keep_balance (resolve w (cache_token_info s)))
             (erc20_get_balances w a (erc20_tokens_used_by_address w a))), s').
Proof.
  intros Hv. unfold get_balances. rewrite Hv. simpl.
  unfold bind, call. simpl.
  destruct (get_balances_loop_result w
              (erc20_get_balances w a (erc20_tokens_used_by_address w a)) []
              (add_event (Erc20GetBalances a (erc20_tokens_used_by_address w a))
                 (add_event (Erc20TokensUsedByAddress a) s))) as (s' & H & _).
  exists s'. exact H.
Qed.

Lemma get_balances_invalid a w s :
  isChecksumAddress a = false -> get_balances a w s = (Raise AssertionError, s).
Proof. intros Hv. unfold get_balances. by rewrite Hv. Qed.

(** ** The price chain *)

Lemma get_token_eth_value_uncached_result a w s :
  exists s',
    get_token_eth_value_uncached a w s = (Ok (chain_price w a), s') /\ same_caches s s'.
Proof.
  pose proof (get_token_eth_value_uncached_same_caches a w s) as Hc.
  unfold get_token_eth_value_uncached, chain_price, bind, call, logger_warning, ret in *.
  simpl in *.
  destruct (uniswap_get_price w a); simpl in *; [eauto|].
  destruct (kyber_get_price w a); simpl in *; eauto.
Qed.

Lemma get_token_eth_value_result a w s :
  exists s',
    get_token_eth_value a w s =
      (Ok match cached (now w) (cache_token_eth_value s) a with
          | Some price => price
          | None => chain_price w a
          end, s').
Proof.
  unfold get_token_eth_value.
  destruct (cached (now w) (cache_token_eth_value s) a) as [p|] eqn:Hc.
  - rewrite (cachedmethod_ttl_hit _ _ _ _ _ _ _ Hc). eauto.
  - rewrite (cachedmethod_ttl_miss _ _ _ _ _ _ Hc).
    destruct (get_token_eth_value_uncached_result a w
                (set_cache_token_eth_value
                   (snd (Cachetools.getitem (now w) (cache_token_eth_value s) a)) s))
      as (s' & -> & _).
    eauto.
Qed.

(** ** The ticker sources *)


(** [get_eth_usd_price_uncached] fails with [CannotGetEthereumPrice] only
    when both sources did. *)
Lemma get_eth_usd_price_uncached_fails w s s' :
  get_eth_usd_price_uncached w s = (Raise CannotGetEthereumPrice, s') ->
  exists s1,
    get_eth_usd_price_kraken w s = (Raise CannotGetEthereumPrice, s1) /\
    get_eth_usd_price_binance w s1 = (Raise CannotGetEthereumPrice, s').
Proof.
  unfold get_eth_usd_price_uncached, try_except.
  destruct (get_eth_usd_price_kraken w s) as [[p|e] s1]; [done|].
  destruct (decide (e = CannotGetEthereumPrice)) as [->|Hne].
  - unfold bind, ret.
    destruct (get_eth_usd_price_binance w s1) as [[p|e] s2] eqn:Hb; [done|].
    intros [= -> ->]. eauto.
  - intros [= -> ->]. done.
Qed.

(** ** What the methods log *)

Lemma logs_same_events allowed s s' : events s' = events s -> logs allowed s s'.
Proof. intros H. exists []. by rewrite app_nil_r. Qed.


(** What holds of every relation that admits the events below and the
    updates of the token caches holds of it across the methods that value
    balances. *)
Section Kept.
Context (R : BalanceService -> BalanceService -> Prop) `{!Reflexive R} `{!Transitive R}.
Hypothesis R_event : forall ev s, not_ticker ev -> R s (add_event ev s).
Hypothesis R_token_info : forall c s, R s (set_cache_token_info c s).
Hypothesis R_token_eth_value : forall c s,
  Cachetools.maxsize c = Cachetools.maxsize (cache_token_eth_value s) ->
  Cachetools.ttl c = Cachetools.ttl (cache_token_eth_value s) ->
  R s (set_cache_token_eth_value c s).

Lemma get_token_info_kept a : preserves R (get_token_info a).
Proof.
  unfold get_token_info. apply preserves_cachedmethod_dict;
    try typeclasses eauto; [exact R_token_info|].
  unfold get_token_info_uncached. preserves_tac; by apply R_event.
Qed.

Lemma get_token_eth_value_kept a : preserves R (get_token_eth_value a).
Proof.
  unfold get_token_eth_value. apply preserves_cachedmethod_ttl;
    try typeclasses eauto; [exact R_token_eth_value|].
  unfold get_token_eth_value_uncached. preserves_tac; by apply R_event.
Qed.

Lemma get_balances_loop_kept raw : forall balances,
  preserves R (get_balances_loop raw balances).
Proof.
  induction raw as [|r raw IH]; intros balances; cbn [get_balances_loop].
  - apply preserves_ret; typeclasses eauto.
  - destruct (raw_token_address r) as [a|]; [|apply IH].
    destruct (String.eqb a ""); [apply IH|].
    destruct (0 <? raw_balance r); [|apply IH].
    apply preserves_bind; [typeclasses eauto | apply get_token_info_kept |].
    intros [i|]; apply IH.
Qed.

Lemma get_balances_kept a : preserves R (get_balances a).
Proof.
  unfold get_balances. destruct (negb (isChecksumAddress a)).
  - apply preserves_raise; typeclasses eauto.
  - apply preserves_bind; [typeclasses eauto | |intros ?].
    { apply preserves_call. intros. by apply R_event. }
    apply preserves_bind; [typeclasses eauto | |intros ?].
    { apply preserves_call. intros. by apply R_event. }
    apply get_balances_loop_kept.
Qed.

Lemma get_balance_usd_kept eth_value b : preserves R (get_balance_usd eth_value b).
Proof.
  unfold get_balance_usd. destruct (negb (Py.str_truthy (token_address b))).
  - preserves_tac.
  - apply preserves_bind; [typeclasses eauto | apply get_token_eth_value_kept |].
    intros p. destruct (Py.float_truthy p); preserves_tac.
Qed.

Lemma get_usd_balances_loop_kept eth_value balances : forall out,
  preserves R (get_usd_balances_loop eth_value balances out).
Proof.
  induction balances as [|b bs IH]; intros out; cbn [get_usd_balances_loop].
  - apply preserves_ret; typeclasses eauto.
  - apply preserves_bind; [typeclasses eauto | apply get_balance_usd_kept |].
    intros usd. apply preserves_bind; [typeclasses eauto | |intros ?; apply IH].
    apply preserves_lift; typeclasses eauto.
Qed.

End Kept.

(** Apart from [get_eth_usd_price], no method calls a ticker. *)
Lemma get_balances_logs a : preserves (logs not_ticker) (get_balances a).
Proof.
  apply get_balances_kept; try typeclasses eauto.
  - intros. by apply logs_add_event.
  - intros. by apply logs_same_events.
Qed.

Lemma get_usd_balances_loop_logs eth_value balances out :
  preserves (logs not_ticker) (get_usd_balances_loop eth_value balances out).
Proof.
  apply get_usd_balances_loop_kept; try typeclasses eauto.
  - intros. by apply logs_add_event.
  - intros. by apply logs_same_events.
Qed.

(** ** The caches stay as [__init__] set them up *)

Lemma get_eth_usd_price_same_config : preserves same_config get_eth_usd_price.
Proof.
  unfold get_eth_usd_price. apply preserves_cachedmethod_ttl; try typeclasses eauto.
  - intros c s Hm Ht. by repeat split.
  - unfold get_eth_usd_price_uncached. preserves_tac; apply same_config_add_event.
Qed.

Lemma get_usd_balances_same_config a : preserves same_config (get_usd_balances a).
Proof.
  unfold get_usd_balances.
  apply preserves_bind; [typeclasses eauto | |intros balances].
  { apply get_balances_kept; try typeclasses eauto; intros; done. }
  apply preserves_bind; [typeclasses eauto | apply get_eth_usd_price_same_config |].
  intros eth_value.
  apply get_usd_balances_loop_kept; try typeclasses eauto; intros; done.
Qed.

Lemma new_BalanceService_configured : configured new_BalanceService.
Proof. by repeat split. Qed.

Lemma configured_kept s s' : same_config s s' -> configured s -> configured s'.
Proof.
  intros (H1 & H2 & H3 & H4) (C1 & C2 & C3 & C4). unfold configured.
  by rewrite H1, H2, H3, H4.
Qed.

(** Every call of [get_usd_balances] leaves a configured service
    configured. *)
Lemma get_usd_balances_configured a w s :
  configured s -> configured (snd (get_usd_balances a w s)).
Proof. apply configured_kept, get_usd_balances_same_config. Qed.

(** ** Valuation *)

Lemma as_Balance_with_usd b usd : as_Balance (with_usd b usd) = b.
Proof. by destruct b. Qed.

Lemma round_zero : Py.round PrimFloat.zero 4 = Ok PrimFloat.zero.
Proof. vm_compute. reflexivity. Qed.

Lemma str_truthy_Some o :
  Py.str_truthy o = true -> exists a, o = Some a.
Proof. destruct o; [eauto|done]. Qed.

(** One round of the loop of [get_usd_balances] values the balance as the
    specification says. *)
Lemma get_balance_usd_valued eth_value b w s usd s1 rounded :
  get_balance_usd eth_value b w s = (Ok usd, s1) ->
  Py.round usd 4 = Ok rounded ->
  valued eth_value w s b (with_usd b rounded) s1.
Proof.
  unfold get_balance_usd.
  destruct (Py.str_truthy (token_address b)) eqn:Ht; simpl.
  - destruct (str_truthy_Some _ Ht) as [a Ha]. rewrite Ha. simpl.
    unfold bind at 1.
    destruct (get_token_eth_value a w s) as [[p|e] s2] eqn:Hp; [|done].
    destruct (Py.float_truthy p) eqn:Hf.
    + destruct (token b) as [t|] eqn:Htok; [|done].
      unfold bind, lift, ret.
      destruct (Py.int_truediv (balance b) (10 ^ Z.of_N (decimals t))) as [q|] eqn:Hq; [|done].
      destruct eth_value as [base|]; simpl; [|done].
      intros [= <- <-] Hr.
      eapply valued_token; eauto.
      unfold usd_amount. rewrite Hq. exact Hr.
    + unfold ret. intros [= <- <-]. rewrite round_zero. intros [= <-].
      eapply valued_zero; eauto.
  - unfold bind, lift.
    destruct (Py.int_truediv (balance b) (10 ^ 18)) as [q|] eqn:Hq; [|done].
    destruct eth_value as [base|]; simpl; [|done].
    intros [= <- <-] Hr.
    eapply valued_base; eauto.
    unfold usd_amount. rewrite Hq. exact Hr.
Qed.

Lemma get_usd_balances_loop_valued eth_value w balances : forall acc s out s',
  get_usd_balances_loop eth_value balances acc w s = (Ok out, s') ->
  exists os, out = acc ++ os /\ valued_all eth_value w s balances os s'.
Proof.
  induction balances as [|b bs IH]; intros acc s out s'; cbn [get_usd_balances_loop].
  - intros [= <- <-]. exists []. split; [by rewrite app_nil_r | constructor].
  - unfold bind at 1.
    destruct (get_balance_usd eth_value b w s) as [[usd|e] s1] eqn:Hb; [|done].
    unfold bind at 1, lift.
    destruct (Py.round usd 4) as [rounded|e] eqn:Hr; [|done].
    intros Hloop. apply IH in Hloop as (os & -> & Hos).
    exists (with_usd b rounded :: os). split; [by rewrite <- app_assoc|].
    econstructor; [|exact Hos]. by eapply get_balance_usd_valued.
Qed.

Lemma valued_as_Balance eth_value w s b o s' :
  valued eth_value w s b o s' -> as_Balance o = b.
Proof. destruct 1; apply as_Balance_with_usd. Qed.

Lemma valued_all_as_Balance eth_value w s bs os s' :
  valued_all eth_value w s bs os s' -> map as_Balance os = bs.
Proof.
  induction 1 as [|s s1 s' b o bs os Hv _ IH]; [done|].
  simpl. by rewrite IH, (valued_as_Balance _ _ _ _ _ _ Hv).
Qed.

(** A successful [get_usd_balances] is [get_balances], then
    [get_eth_usd_price], then the valuation of each balance in turn. *)
Lemma get_usd_balances_run a w s out s' :
  get_usd_balances a w s = (Ok out, s') ->
  exists balances s1 eth_value s2,
    get_balances a w s = (Ok balances, s1) /\
    get_eth_usd_price w s1 = (Ok eth_value, s2) /\
    valued_all eth_value w s2 balances out s'.
Proof.
  unfold get_usd_balances. unfold bind at 1.
  destruct (get_balances a w s) as [[balances|e] s1] eqn:Hb; [|done].
  unfold bind at 1.
  destruct (get_eth_usd_price w s1) as [[eth_value|e] s2] eqn:He; [|done].
  intros Hloop. apply get_usd_balances_loop_valued in Hloop as (os & -> & Hos).
  exists balances, s1, eth_value, s2. split; [done|]. split; [done|]. exact Hos.
Qed.

Lemma valued_state eth_value w s b o s1 :
  valued eth_value w s b o s1 -> valuation_state w s [b] = s1.
Proof.
  destruct 1 as [s b base usd Ht _ _
                |s s1 b a p base t usd Ha Ht Hp _ _ _ _
                |s s1 b a p Ha Ht Hp _]; simpl; rewrite Ht; [done| |];
    by rewrite Ha; simpl; rewrite Hp.
Qed.

Lemma valued_all_length eth_value w s bs os s' :
  valued_all eth_value w s bs os s' -> length os = length bs.
Proof. induction 1; simpl; congruence. Qed.

(** The state in which the loop values the balance at index [i] is the one
    reached by asking the token prices of the balances before it. *)
Lemma valued_all_lookup_at eth_value w s bs os s' i b :
  valued_all eth_value w s bs os s' ->
  bs !! i = Some b ->
  exists o,
    os !! i = Some o /\
    valued eth_value w (valuation_state w s (take i bs)) b o
      (valuation_state w s (take (S i) bs)).
Proof.
  intros H. revert i. induction H as [|s s1 s' b0 o bs os Hv _ IH]; intros i; [done|].
  pose proof (valued_state _ _ _ _ _ _ Hv) as Hs1. simpl in Hs1.
  destruct i as [|i].
  - intros [= <-]. exists o. split; [done|].
    rewrite take_0. cbn [take valuation_state]. by rewrite Hs1.
  - intros Hi. destruct (IH i Hi) as (o' & Ho' & Hv'). exists o'. split; [done|].
    cbn [take valuation_state]. by rewrite Hs1.
Qed.

Lemma keep_balance_token f raw b :
  keep_balance f raw = Some b ->
  Py.str_truthy (token_address b) = true -> is_Some (token b).
Proof.
  unfold keep_balance.
  destruct (Py.str_truthy (raw_token_address raw)) eqn:Ht; simpl.
  - destruct (raw_balance raw <=? 0); [done|].
    destruct (f (default "" (raw_token_address raw))); [|done].
    intros [= <-]. simpl. eauto.
  - intros [= <-]. simpl. congruence.
Qed.

Lemma get_balances_Ok a w s balances s1 :
  get_balances a w s = (Ok balances, s1) ->
  balances = omap (keep_balance (resolve w (cache_token_info s)))
               (erc20_get_balances w a (erc20_tokens_used_by_address w a)).
Proof.
  destruct (isChecksumAddress a) eqn:Hv.
  - destruct (get_balances_valid a w s Hv) as (s' & ->). by intros [= <- _].
  - by rewrite (get_balances_invalid a w s Hv).
Qed.

(** ** The properties *)

(** C2 (amended). When metadata resolution fails for a token address, the
    Unresolvable outcome is in the metadata cache after the call, under
    that address (it is stored by the call unless it was there already),
    and every later resolution of the address returns Unresolvable from the
    cache, leaving the service as it is: the node is not asked again,
    whatever it would answer then. *)
Theorem get_token_info_caches_unresolvable a w s s1 :
  get_token_info a w s = (Ok None, s1) ->
  cache_token_info s1 = <[a := None]> (cache_token_info s) /\
  forall w', get_token_info a w' s1 = (Ok None, s1).
Proof.
  intros Hcall.
  destruct (get_token_info_result a w s) as (s' & Hr & Hc & _).
  rewrite Hcall in Hr. injection Hr as Hnone <-.
  rewrite <- Hnone in Hc. split; [exact Hc|].
  intros w'. unfold get_token_info, cachedmethod_dict.
  by rewrite Hc, lookup_insert_eq.
Qed.

(** C4. [get_token_eth_value] never raises.  When the price chain runs (the
    body under the decorator; it runs when the cache has no live price for
    the address) it returns the primary oracle's price if that oracle has
    one, otherwise the secondary oracle's, and 0 when both fail; with a
    live cached price the method returns that price. *)
Theorem get_token_eth_value_never_raises a w s :
  (exists s', get_token_eth_value_uncached a w s = (Ok (chain_price w a), s')) /\
  (exists s', get_token_eth_value a w s =
     (Ok match cached (now w) (cache_token_eth_value s) a with
         | Some price => price
         | None => chain_price w a
         end, s')).
Proof.
  split.
  - destruct (get_token_eth_value_uncached_result a w s) as (s' & H & _). eauto.
  - apply get_token_eth_value_result.
Qed.

(** C5. For a checksummed address [get_balances] returns the raw balances
    the node gave, filtered by [keep_balance] and in the same order: an
    entry without token address is kept, with no metadata, whatever its
    amount; a token entry with an amount of 0 or less is dropped; a token
    entry with a positive amount is dropped when its metadata does not
    resolve and kept with the resolved metadata otherwise. *)
Theorem get_balances_filter a w s :
  isChecksumAddress a = true ->
  exists s',
    get_balances a w s =
      (Ok (omap (keep_balance (resolve w (cache_token_info s)))
             (erc20_get_balances w a (erc20_tokens_used_by_address w a))), s').
Proof. apply get_balances_valid. Qed.

(** C9. An address that is not checksummed makes [get_balances] raise
    [AssertionError] with the service untouched: nothing was asked of any
    collaborator.  For a checksummed address the call returns balances. *)
Theorem get_balances_validates_address a w s :
  if isChecksumAddress a
  then exists balances s', get_balances a w s = (Ok balances, s')
  else get_balances a w s = (Raise AssertionError, s).
Proof.
  destruct (isChecksumAddress a) eqn:Hv.
  - destruct (get_balances_valid a w s Hv) as (s' & H). eauto.
  - by apply get_balances_invalid.
Qed.

(** C10. When [get_usd_balances] succeeds, its output without the USD
    amounts is the list [get_balances] returned: same length, same order,
    same token address, metadata and raw amount in each entry. *)
Theorem get_usd_balances_frame a w s out s' :
  get_usd_balances a w s = (Ok out, s') ->
  exists balances s1,
    get_balances a w s = (Ok balances, s1) /\ map as_Balance out = balances.
Proof.
  intros H. apply get_usd_balances_run in H as (balances & s1 & eth & s2 & Hb & _ & Hv).
  exists balances, s1. split; [done|]. by eapply valued_all_as_Balance.
Qed.

(** C3. Every entry [get_usd_balances] returns carries the amount of the
    specification: for the base currency, the base price times the raw
    amount over 10^18, rounded to 4 decimals; for a token whose price in
    the base currency is not zero, the base price times that price times
    the raw amount over 10 to the token's decimals, rounded to 4 decimals.
    The raw amount and the decimals are those of the balance [get_balances]
    returned at that place, the base price is the one [get_eth_usd_price]
    returned in the call, and the token price is the one
    [get_token_eth_value] returns for the token in the state the service
    is in when the loop reaches the entry (the prices of the entries before
    it have been asked).  With a base price of 2000.0,
    1_500_000_000_000_000_000 wei are worth 3000.0; with 6 decimals, a
    token price of 0.001 and a base price of 2000.0, a raw amount of
    2_500_000 is worth 5.0. *)
Theorem get_usd_balances_amounts :
  (forall a w s out s',
     get_usd_balances a w s = (Ok out, s') ->
     exists balances s1 eth_value s2,
       get_balances a w s = (Ok balances, s1) /\
       get_eth_usd_price w s1 = (Ok eth_value, s2) /\
       forall i o, out !! i = Some o ->
         balances !! i = Some (as_Balance o) /\
         if Py.str_truthy (usd_token_address o)
         then
           exists addr token_price_base si',
             usd_token_address o = Some addr /\
             get_token_eth_value addr w (valuation_state w s2 (take i balances)) =
               (Ok token_price_base, si') /\
             (Py.float_truthy token_price_base = true ->
              exists base_price_usd t,
                eth_value = Some base_price_usd /\ usd_token o = Some t /\
                usd_amount base_price_usd (Some token_price_base)
                  (usd_balance o) (Z.of_N (decimals t)) = Ok (balance_usd o))
         else
           exists base_price_usd,
             eth_value = Some base_price_usd /\
             usd_amount base_price_usd None (usd_balance o) 18 = Ok (balance_usd o)) /\
  usd_amount 2000 None 1500000000000000000 18 = Ok 3000%float /\
  usd_amount 2000 (Some 0.001%float) 2500000 6 = Ok 5%float.
Proof.
  split; [|split; vm_compute; reflexivity].
  intros a w s out s' H.
  apply get_usd_balances_run in H as (balances & s1 & eth & s2 & Hb & He & Hv).
  exists balances, s1, eth, s2. split; [done|]. split; [done|].
  intros i o Ho.
  assert (is_Some (balances !! i)) as [b Hi].
  { apply lookup_lt_is_Some. rewrite <- (valued_all_length _ _ _ _ _ _ Hv).
    by eapply lookup_lt_Some. }
  destruct (valued_all_lookup_at _ _ _ _ _ _ _ _ Hv Hi) as (o' & Ho' & Hval).
  rewrite Ho in Ho'. injection Ho' as <-.
  split; [by rewrite (valued_as_Balance _ _ _ _ _ _ Hval)|].
  set (si := valuation_state w s2 (take i balances)) in *.
  set (si' := valuation_state w s2 (take (S i) balances)) in *.
  clearbody si si'.
  destruct Hval as [s0 b base usd Ht -> Hu
                   |s0 s0' b addr p base t usd Ha Ht Hp Hf -> Htok Hu
                   |s0 s0' b addr p Ha Ht Hp Hf]; simpl; rewrite Ht.
  - eauto.
  - exists addr, p, s0'. repeat split; [done..|]. intros _. eauto.
  - exists addr, p, s0'. repeat split; [done..|]. congruence.
Qed.


(** C7. A token balance that [get_balances] returned (its metadata did
    resolve: balances whose metadata does not resolve are not returned) and
    for which the price chain yields 0 is in the output of a successful
    [get_usd_balances], at the same place, with a USD amount of exactly 0;
    the output has as many entries as [get_balances] returned.  The price
    is the one [get_token_eth_value] returns for the token in the state the
    service is in when the loop reaches the balance (the prices of the
    balances before it have been asked). *)
Theorem zero_price_token_is_kept a w s out s' :
  get_usd_balances a w s = (Ok out, s') ->
  exists balances s1 eth_value s2,
    get_balances a w s = (Ok balances, s1) /\
    get_eth_usd_price w s1 = (Ok eth_value, s2) /\
    length out = length balances /\
    forall i b,
      balances !! i = Some b ->
      Py.str_truthy (token_address b) = true ->
      is_Some (token b) /\
      exists addr token_price_base si',
        token_address b = Some addr /\
        get_token_eth_value addr w (valuation_state w s2 (take i balances)) =
          (Ok token_price_base, si') /\
        (Py.float_truthy token_price_base = false ->
         out !! i = Some (with_usd b PrimFloat.zero)).
Proof.
  intros H.
  apply get_usd_balances_run in H as (balances & s1 & eth & s2 & Hb & He & Hv).
  exists balances, s1, eth, s2. split; [done|]. split; [done|].
  split; [by eapply valued_all_length|].
  intros i b Hi Ht. split.
  - apply get_balances_Ok in Hb. subst balances.
    apply list_elem_of_lookup_2 in Hi. apply list_elem_of_omap in Hi as (raw & _ & Hkeep).
    by eapply keep_balance_token.
  - destruct (valued_all_lookup_at _ _ _ _ _ _ _ _ Hv Hi) as (o & Ho & Hval).
    set (si := valuation_state w s2 (take i balances)) in *.
    set (si' := valuation_state w s2 (take (S i) balances)) in *.
    clearbody si si'.
    destruct Hval as [s0 b base usd Ht' -> Hu
                     |s0 s0' b addr p base t usd Ha Ht' Hp Hf -> Htok Hu
                     |s0 s0' b addr p Ha Ht' Hp Hf].
    + congruence.
    + exists addr, p, s0'. repeat split; [done..|]. congruence.
    + exists addr, p, s0'. by repeat split.
Qed.

(** C8. A price a price operation returned is cached with an expiry time,
    1800 seconds after the call when the call had to compute it; a further
    call made before that time returns the same price and leaves the
    service as it is (no source is asked), in whatever world it is made:
    only a call after the expiry can return another price.  This holds for
    the base-currency price and for the price of every token. *)
Theorem prices_stable_within_ttl w s :
  configured s ->
  (forall price s1,
     get_eth_usd_price w s = (Ok price, s1) ->
     exists e,
       expiry (cache_eth_usd_price s1) tt = Some e /\
       now w <= e /\
       (cached (now w) (cache_eth_usd_price s) tt = None -> e = now w + 1800) /\
       forall w', now w' <= e -> get_eth_usd_price w' s1 = (Ok price, s1)) /\
  (forall a price s1,
     get_token_eth_value a w s = (Ok price, s1) ->
     exists e,
       expiry (cache_token_eth_value s1) a = Some e /\
       now w <= e /\
       (cached (now w) (cache_token_eth_value s) a = None -> e = now w + 1800) /\
       forall w', now w' <= e -> get_token_eth_value a w' s1 = (Ok price, s1)).
Proof.
  intros (Hm1 & Ht1 & Hm2 & Ht2). split.
  - intros price s1 Hcall. unfold get_eth_usd_price in Hcall.
    eapply cachedmethod_ttl_again in Hcall as (e & He & Hnow & Hfresh & Hagain);
      [|done|done| |rewrite Hm1; lia|rewrite Ht1; lia].
    2:{ intros w0 s0. by destruct (get_eth_usd_price_uncached_same_caches w0 s0) as (?&?&?). }
    exists e. rewrite Ht1 in Hfresh. repeat split; [done..|].
    intros w' Hw'. by apply Hagain.
  - intros a price s1 Hcall. unfold get_token_eth_value in Hcall.
    eapply cachedmethod_ttl_again in Hcall as (e & He & Hnow & Hfresh & Hagain);
      [|done|done| |rewrite Hm2; lia|rewrite Ht2; lia].
    2:{ intros w0 s0. by destruct (get_token_eth_value_uncached_same_caches a w0 s0) as (?&?&?). }
    exists e. rewrite Ht2 in Hfresh. repeat split; [done..|].
    intros w' Hw'. by apply Hagain.
Qed.

(** ** Further properties of the methods *)

Lemma bind_Ok {A B} (m : M A) (k : A -> M B) w s b s' :
  bind m k w s = (Ok b, s') ->
  exists a s1, m w s = (Ok a, s1) /\ k a w s1 = (Ok b, s').
Proof. unfold bind. destruct (m w s) as [[a|e] s1]; [eauto|done]. Qed.

Lemma bind_Raise {A B} (m : M A) (k : A -> M B) w s e s' :
  bind m k w s = (Raise e, s') ->
  m w s = (Raise e, s') \/ exists a s1, m w s = (Ok a, s1) /\ k a w s1 = (Raise e, s').
Proof. unfold bind. destruct (m w s) as [[a|e0] s1]; [eauto|]. intros [= -> ->]. by left. Qed.

Lemma try_except_Ok {A} (m : M A) e (handler : M A) w s a s' :
  try_except m e handler w s = (Ok a, s') ->
  m w s = (Ok a, s') \/ exists s1, m w s = (Raise e, s1) /\ handler w s1 = (Ok a, s').
Proof.
  unfold try_except. destruct (m w s) as [[a0|e0] s1]; [by left|].
  destruct (decide (e0 = e)) as [->|]; [eauto|done].
Qed.

Lemma keep_balance_Some f raw b :
  keep_balance f raw = Some b ->
  token_address b = raw_token_address raw /\ balance b = raw_balance raw /\
  if Py.str_truthy (token_address b)
  then 0 < balance b /\ token b = f (default "" (raw_token_address raw)) /\ is_Some (token b)
  else token b = None.
Proof.
  unfold keep_balance.
  destruct (Py.str_truthy (raw_token_address raw)) eqn:Ht; simpl.
  - destruct (Z.leb_spec (raw_balance raw) 0); [done|].
    destruct (f (default "" (raw_token_address raw))) eqn:Hf; [|done].
    intros [= <-]. simpl. rewrite Ht. eauto 10.
  - intros [= <-]. simpl. by rewrite Ht.
Qed.

(** X1. What [get_balances] returns: no more entries than the node gave;
    an entry with a token address has a positive amount and metadata, an
    entry without one has no metadata; and every raw entry without a token
    address is returned, whatever its amount. *)
Theorem get_balances_entries a w s balances s' :
  get_balances a w s = (Ok balances, s') ->
  let raw_balances := erc20_get_balances w a (erc20_tokens_used_by_address w a) in
  (length balances <= length raw_balances)%nat /\
  (forall b, b ∈ balances ->
     if Py.str_truthy (token_address b)
     then 0 < balance b /\ is_Some (token b)
     else token b = None) /\
  (forall raw, raw ∈ raw_balances ->
     Py.str_truthy (raw_token_address raw) = false ->
     {| token_address := raw_token_address raw; token := None; balance := raw_balance raw |}
       ∈ balances).
Proof.
  intros H raw_balances. apply get_balances_Ok in H. fold raw_balances in H. subst balances.
  split; [|split].
  - generalize raw_balances. intros l. induction l as [|r l IH]; [done|].
    cbn [omap list_omap]. destruct (keep_balance _ r); simpl; lia.
  - intros b Hb. apply list_elem_of_omap in Hb as (raw & _ & Hk).
    apply keep_balance_Some in Hk as (_ & _ & Hk).
    destruct (Py.str_truthy (token_address b)); [|done]. by destruct Hk as (? & _ & ?).
  - intros raw Hraw Ht. apply list_elem_of_omap. exists raw. split; [done|].
    unfold keep_balance. by rewrite Ht.
Qed.


Lemma resolve_matches w cache a i :
  metadata_matches cache -> resolve w cache a = Some i ->
  address i = a /\ logo_uri i = get_erc20_logo_uri a.
Proof.
  intros Hm. unfold resolve. destruct (cache !! a) as [r|] eqn:Hl.
  - intros ->. by apply Hm.
  - destruct (erc20_get_info w a); [|done]. by intros [= <-].
Qed.

Lemma metadata_matches_insert w cache a :
  metadata_matches cache -> metadata_matches (<[a := resolve w cache a]> cache).
Proof.
  intros Hm a' i. destruct (decide (a = a')) as [->|Hne].
  - rewrite lookup_insert_eq. intros [= Hr]. by eapply resolve_matches.
  - rewrite lookup_insert_ne by done. apply Hm.
Qed.

Lemma get_balances_loop_matches w raw : forall balances s r s',
  get_balances_loop raw balances w s = (r, s') ->
  metadata_matches (cache_token_info s) -> metadata_matches (cache_token_info s').
Proof.
  induction raw as [|x raw IH]; intros balances s r s'; cbn [get_balances_loop].
  - by intros [= _ <-].
  - destruct (raw_token_address x) as [a|]; [|apply IH].
    destruct (String.eqb a ""); [apply IH|].
    destruct (0 <? raw_balance x); [|apply IH].
    unfold bind. destruct (get_token_info_result a w s) as (s1 & -> & Hc & _).
    intros Hloop Hm.
    assert (metadata_matches (cache_token_info s1)) as Hm1
      by (rewrite Hc; by apply metadata_matches_insert).
    destruct (resolve w (cache_token_info s) a); by eapply IH.
Qed.

(** X3. When the metadata cache files every metadata under its own address
    (as the empty cache does), [get_balances] keeps it so, and the metadata
    of every token balance it returns is that of the balance's token
    address, with the logo URI of that address. *)
Theorem get_balances_metadata a w s balances s' :
  metadata_matches (cache_token_info s) ->
  get_balances a w s = (Ok balances, s') ->
  metadata_matches (cache_token_info s') /\
  forall b t, b ∈ balances -> token b = Some t ->
    token_address b = Some (address t) /\ logo_uri t = get_erc20_logo_uri (address t).
Proof.
  intros Hm Hcall. split.
  - revert Hcall. unfold get_balances. destruct (negb (isChecksumAddress a)); [done|].
    unfold bind, call. simpl. intros Hloop.
    by eapply get_balances_loop_matches in Hloop.
  - intros b t Hb Ht. apply get_balances_Ok in Hcall. subst balances.
    apply list_elem_of_omap in Hb as (raw & _ & Hk).
    apply keep_balance_Some in Hk as (Ha & _ & Hk).
    destruct (Py.str_truthy (token_address b)) eqn:Htr; [|congruence].
    destruct Hk as (_ & Hres & _). rewrite Ht in Hres. symmetry in Hres.
    apply (resolve_matches _ _ _ _ Hm) in Hres as [Haddr Hlogo].
    destruct (str_truthy_Some _ Htr) as [a0 Ha0].
    rewrite Ha0 in Ha. rewrite <- Ha in Haddr, Hlogo. simpl in Haddr, Hlogo.
    by rewrite Ha0, Haddr.
Qed.

Lemma get_balances_loop_cached w raw : forall balances s r s',
  get_balances_loop raw balances w s = (r, s') ->
  (forall a, is_Some (cache_token_info s !! a) -> is_Some (cache_token_info s' !! a)) /\
  (forall x a, x ∈ raw -> needs_token_info x = true -> raw_token_address x = Some a ->
     is_Some (cache_token_info s' !! a)).
Proof.
  induction raw as [|x raw IH]; intros balances s r s'; cbn [get_balances_loop].
  - intros [= _ <-]. split; [done|]. intros x a Hx. by apply elem_of_nil in Hx.
  - assert (forall balances' s0 r0 s0',
             get_balances_loop raw balances' w s0 = (r0, s0') ->
             (forall a, is_Some (cache_token_info s !! a) -> is_Some (cache_token_info s0 !! a)) ->
             (needs_token_info x = true ->
              forall a, raw_token_address x = Some a -> is_Some (cache_token_info s0 !! a)) ->
             (forall a, is_Some (cache_token_info s !! a) -> is_Some (cache_token_info s0' !! a)) /\
             (forall y a, y ∈ x :: raw -> needs_token_info y = true ->
                raw_token_address y = Some a -> is_Some (cache_token_info s0' !! a))) as Hstep.
    { intros balances' s0 r0 s0' Hloop Hmono Hx.
      apply IH in Hloop as [Hm Hc]. split; [by auto|].
      intros y a Hy Hn Ha. apply elem_of_cons in Hy as [->|Hy]; [by apply Hm, Hx|by eapply Hc]. }
    unfold needs_token_info in Hstep.
    destruct (raw_token_address x) as [a|] eqn:Hax; simpl in Hstep.
    2:{ intros Hloop. by eapply Hstep. }
    destruct (String.eqb a "") eqn:He; simpl in Hstep.
    { intros Hloop. by eapply Hstep. }
    destruct (0 <? raw_balance x) eqn:Hp.
    2:{ intros Hloop. by eapply Hstep. }
    unfold bind. destruct (get_token_info_result a w s) as (s1 & -> & Hc & _).
    assert (forall a', is_Some (cache_token_info s !! a') -> is_Some (cache_token_info s1 !! a'))
      as Hmono.
    { intros a' Ha'. rewrite Hc. destruct (decide (a = a')) as [->|Hne].
      - rewrite lookup_insert_eq. eauto.
      - by rewrite lookup_insert_ne. }
    assert (forall a', Some a = Some a' -> is_Some (cache_token_info s1 !! a')) as Hnow.
    { intros a' [= <-]. rewrite Hc, lookup_insert_eq. eauto. }
    destruct (resolve w (cache_token_info s) a); intros Hloop; eapply Hstep; eauto.
Qed.

Lemma get_balances_loop_all_cached w raw : forall balances s,
  (forall x a, x ∈ raw -> needs_token_info x = true -> raw_token_address x = Some a ->
     is_Some (cache_token_info s !! a)) ->
  get_balances_loop raw balances w s =
    (Ok (balances ++ omap (keep_balance (resolve w (cache_token_info s))) raw), s).
Proof.
  induction raw as [|x raw IH]; intros balances s Hall; cbn [get_balances_loop omap list_omap].
  - unfold ret. by rewrite app_nil_r.
  - assert (forall balances',
             get_balances_loop raw balances' w s =
               (Ok (balances' ++ omap (keep_balance (resolve w (cache_token_info s))) raw), s))
      as Hrest.
    { intros. apply IH. intros y a Hy. apply Hall. by right. }
    specialize (Hall x). unfold needs_token_info in Hall. unfold keep_balance at 1.
    destruct (raw_token_address x) as [a|] eqn:Hax; simpl in *.
    2:{ rewrite Hrest. by rewrite <- app_assoc. }
    destruct (String.eqb a "") eqn:He; simpl in *.
    { rewrite Hrest. by rewrite <- app_assoc. }
    destruct (Z.ltb_spec 0 (raw_balance x)) as [Hpos|Hneg].
    2:{ destruct (Z.leb_spec (raw_balance x) 0); [|lia]. apply Hrest. }
    destruct (Z.leb_spec (raw_balance x) 0); [lia|].
    destruct (Hall a) as [r Hr]; [by left|done|done|].
    unfold bind, get_token_info, cachedmethod_dict, resolve at 1. rewrite Hr.
    destruct r as [i|]; rewrite Hrest; [by rewrite <- app_assoc|done].
Qed.

(** X4. [get_balances] can be repeated: a second call in the same world
    returns the same balances, and all it asks of its collaborators is the
    list of tokens and their raw balances; it asks for no metadata, since
    the first call cached every outcome it needs. *)
Theorem get_balances_again a w s balances s1 :
  get_balances a w s = (Ok balances, s1) ->
  exists s2,
    get_balances a w s1 = (Ok balances, s2) /\
    new_events s1 s2 =
      [Erc20TokensUsedByAddress a;
       Erc20GetBalances a (erc20_tokens_used_by_address w a)].
Proof.
  intros Hcall. pose proof (get_balances_Ok _ _ _ _ _ Hcall) as Hb.
  revert Hcall. unfold get_balances.
  destruct (negb (isChecksumAddress a)); [done|].
  unfold bind, call. simpl.
  set (tokens := erc20_tokens_used_by_address w a) in *.
  set (raw := erc20_get_balances w a tokens) in *.
  set (s0 := add_event (Erc20GetBalances a tokens) (add_event (Erc20TokensUsedByAddress a) s)).
  intros Hloop.
  destruct (get_balances_loop_result w raw [] s0) as (s' & Hres & Hsame).
  rewrite Hloop in Hres. injection Hres as _ <-.
  apply get_balances_loop_cached in Hloop as [_ Hcached].
  set (s1' := add_event (Erc20GetBalances a tokens) (add_event (Erc20TokensUsedByAddress a) s1)).
  exists s1'. split.
  - rewrite (get_balances_loop_all_cached w raw [] s1') by exact Hcached.
    simpl. rewrite Hb. do 2 f_equal.
    apply omap_keep_balance_ext. intros a'. apply (Hsame a').
  - unfold new_events, s1'. simpl. rewrite <- app_assoc. by rewrite drop_app_length.
Qed.

Lemma int_truediv_raises a b e :
  Py.int_truediv a b = Raise e -> b <> 0 -> e = OverflowError.
Proof.
  unfold Py.int_truediv. destruct (Z.eqb_spec b 0); [done|]. intros H _. revert H.
  destruct (a =? 0); [done|].
  by destruct (Py.sf_of_quotient _ _ _); intros [= <-].
Qed.

Lemma round_raises x n e : Py.round x n = Raise e -> e = OverflowError.
Proof.
  unfold Py.round. destruct (Prim2SF x) as [| | |sg m ex]; try done.
  destruct (_ =? 0); [done|].
  by destruct (Py.sf_of_quotient _ _ _); intros [= <-].
Qed.

Lemma pow10_nonzero k : 0 <= k -> 10 ^ k <> 0.
Proof. intros. apply Z.pow_nonzero; lia. Qed.

(** The valuation of one balance that has its metadata can only fail with
    [OverflowError], or with [TypeError] for want of a base price. *)
Lemma get_balance_usd_raises eth_value b w s e s' :
  get_balance_usd eth_value b w s = (Raise e, s') ->
  (Py.str_truthy (token_address b) = true -> is_Some (token b)) ->
  e = OverflowError \/ (e = TypeError /\ eth_value = None).
Proof.
  unfold get_balance_usd.
  destruct (Py.str_truthy (token_address b)) eqn:Ht; simpl.
  - intros Hcall Htok. destruct Htok as [t Htok]; [done|]. revert Hcall.
    unfold bind at 1.
    destruct (get_token_eth_value_result (default "" (token_address b)) w s) as (s1 & ->).
    destruct (Py.float_truthy _); [|done].
    rewrite Htok. unfold bind, lift, ret.
    destruct (Py.int_truediv (balance b) (10 ^ Z.of_N (decimals t))) as [q|e0] eqn:Hq.
    + destruct eth_value; simpl; [done|]. intros [= <- _]. by right.
    + intros [= <- _]. left. eapply int_truediv_raises; [exact Hq|].
      apply pow10_nonzero. lia.
  - intros Hcall _. revert Hcall. unfold bind, lift.
    destruct (Py.int_truediv (balance b) (10 ^ 18)) as [q|e0] eqn:Hq.
    + destruct eth_value; simpl; [done|]. intros [= <- _]. by right.
    + intros [= <- _]. left. eapply int_truediv_raises; [exact Hq|done].
Qed.

Lemma get_usd_balances_loop_raises eth_value w balances : forall out s e s',
  get_usd_balances_loop eth_value balances out w s = (Raise e, s') ->
  (forall b, b ∈ balances -> Py.str_truthy (token_address b) = true -> is_Some (token b)) ->
  e = OverflowError \/ (e = TypeError /\ eth_value = None).
Proof.
  induction balances as [|b bs IH]; intros out s e s'; cbn [get_usd_balances_loop]; [done|].
  intros Hcall Htok.
  apply bind_Raise in Hcall as [Hb|(usd & s1 & _ & Hcall)].
  { eapply get_balance_usd_raises; [exact Hb|]. apply Htok. by left. }
  apply bind_Raise in Hcall as [Hr|(rounded & s2 & _ & Hcall)].
  { unfold lift in Hr. injection Hr as Hr _. left. by eapply round_raises. }
  eapply IH; [exact Hcall|]. intros b' Hb'. apply Htok. by right.
Qed.

(** X5. How [get_usd_balances] can fail, in a world as [World] describes
    it: the token index and the balance query of the node answer, the
    metadata query fails with [InvalidERC20Info] only and the oracles with
    [OracleException] only (any other exception of a collaborator would
    pass through the method; the model has none).  Then the method fails
    with [AssertionError], the service untouched, for an address that is
    not checksummed; with whatever [get_eth_usd_price] raises; and, once the
    balances and the base price are there, only with [OverflowError] (an
    amount or a value too large for a float) or with [TypeError] when the
    base price is [None].  The valuation itself raises nothing else: no
    missing metadata, no division by zero. *)
Theorem get_usd_balances_failures a w s e s' :
  get_usd_balances a w s = (Raise e, s') ->
  (isChecksumAddress a = false /\ e = AssertionError /\ s' = s) \/
  exists balances s1,
    get_balances a w s = (Ok balances, s1) /\
    (get_eth_usd_price w s1 = (Raise e, s') \/
     exists eth_value s2,
       get_eth_usd_price w s1 = (Ok eth_value, s2) /\
       (e = OverflowError \/ (e = TypeError /\ eth_value = None))).
Proof.
  unfold get_usd_balances. intros Hcall.
  destruct (isChecksumAddress a) eqn:Hv.
  - right. destruct (get_balances_valid a w s Hv) as (s1 & Hb).
    apply bind_Raise in Hcall as [Hr|(balances & s1' & Hb' & Hcall)]; [congruence|].
    exists balances, s1'. split; [done|].
    apply bind_Raise in Hcall as [He|(eth_value & s2 & He & Hloop)]; [by left|].
    right. exists eth_value, s2. split; [done|].
    eapply get_usd_balances_loop_raises; [exact Hloop|].
    intros b Hb0 Ht. apply get_balances_Ok in Hb'. subst balances.
    apply list_elem_of_omap in Hb0 as (raw & _ & Hk). by eapply keep_balance_token.
  - left. unfold bind in Hcall. rewrite (get_balances_invalid a w s Hv) in Hcall.
    by injection Hcall as <- <-.
Qed.

(** ** Who is asked for the base price *)

Ltac run_method :=
  unfold bind, call, lift, raise, ret, try_except, logger_warning;
  repeat case_match; simplify_eq/=.

Ltac log_tail :=
  eexists; split; [rewrite <- ?app_assoc; reflexivity | repeat constructor].

(** Each ticker source asks its endpoint, once, and no one else. *)
Lemma get_eth_usd_price_kraken_asks w s :
  exists rest,
    events (snd (get_eth_usd_price_kraken w s)) = events s ++ HttpGet kraken_url :: rest /\
    Forall is_warning rest.
Proof. unfold get_eth_usd_price_kraken, fetch. run_method; log_tail. Qed.

Lemma get_eth_usd_price_binance_asks w s :
  exists rest,
    events (snd (get_eth_usd_price_binance w s)) = events s ++ HttpGet binance_url :: rest /\
    Forall is_warning rest.
Proof. unfold get_eth_usd_price_binance, fetch. run_method; log_tail. Qed.

Lemma stateless_bind {A B} (m : M A) (k : A -> M B) :
  stateless m -> (forall a, stateless (k a)) -> stateless (bind m k).
Proof.
  intros Hm Hk w s s'. unfold bind. specialize (Hm w s s').
  destruct (m w s) as [[a|e] s1], (m w s') as [[a'|e'] s1']; simpl in *; try congruence.
  injection Hm as <-. apply Hk.
Qed.

Lemma stateless_try_except {A} (m : M A) e (handler : M A) :
  stateless m -> stateless handler -> stateless (try_except m e handler).
Proof.
  intros Hm Hh w s s'. unfold try_except. specialize (Hm w s s').
  destruct (m w s) as [[a|e1] s1], (m w s') as [[a'|e1'] s1']; simpl in *; try congruence.
  injection Hm as <-. destruct (decide (e1 = e)); [apply Hh|done].
Qed.

Lemma get_eth_usd_price_kraken_stateless : stateless get_eth_usd_price_kraken.
Proof.
  unfold get_eth_usd_price_kraken, fetch.
  repeat first
    [ apply stateless_bind; [|intros ?]
    | apply stateless_try_except
    | match goal with |- stateless (match ?x with _ => _ end) => destruct x end
    | by intros ? ? ? ].
Qed.

Lemma not_warning_in url rest : Forall is_warning rest -> ~ HttpGet url ∈ rest.
Proof. intros Hf Hin. rewrite Forall_forall in Hf. exact (Hf _ Hin). Qed.

Lemma new_events_app s s' evs : events s' = events s ++ evs -> new_events s s' = evs.
Proof. intros H. unfold new_events. by rewrite H, drop_app_length. Qed.

(** The body of [get_eth_usd_price]: Kraken is always asked, Binance exactly
    when Kraken failed with [CannotGetEthereumPrice]. *)
Lemma get_eth_usd_price_uncached_asks w s :
  HttpGet kraken_url ∈ new_events s (snd (get_eth_usd_price_uncached w s)) /\
  (HttpGet binance_url ∈ new_events s (snd (get_eth_usd_price_uncached w s)) <->
   fst (get_eth_usd_price_kraken w s) = Raise CannotGetEthereumPrice).
Proof.
  unfold get_eth_usd_price_uncached, try_except.
  destruct (get_eth_usd_price_kraken_asks w s) as (rest & Hev & Hw).
  destruct (get_eth_usd_price_kraken w s) as [r s1]. simpl in Hev.
  destruct r as [p|e]; simpl.
  - rewrite (new_events_app _ _ _ Hev). split; [by left|]. split; [|done].
    intros [[=]|Hin]%elem_of_cons. by apply not_warning_in in Hin.
  - destruct (decide (e = CannotGetEthereumPrice)) as [->|Hne].
    + unfold bind, ret.
      destruct (get_eth_usd_price_binance_asks w s1) as (rest' & Hev' & Hw').
      destruct (get_eth_usd_price_binance w s1) as [[p|e] s2]; simpl in *;
        rewrite Hev, <- app_assoc in Hev'; rewrite (new_events_app _ _ _ Hev');
        (split; [by left|]); (split; [done|]); intros _;
        simpl; right; apply elem_of_app; right; by left.
    + simpl. rewrite (new_events_app _ _ _ Hev). split; [by left|]. split; [|congruence].
      intros [[=]|Hin]%elem_of_cons. by apply not_warning_in in Hin.
Qed.

(** Without a live cached price the body runs, on a service that differs
    in the cache only. *)
Lemma get_eth_usd_price_miss_asks w s :
  cached (now w) (cache_eth_usd_price s) tt = None ->
  HttpGet kraken_url ∈ new_events s (snd (get_eth_usd_price w s)) /\
  (HttpGet binance_url ∈ new_events s (snd (get_eth_usd_price w s)) <->
   fst (get_eth_usd_price_kraken w s) = Raise CannotGetEthereumPrice).
Proof.
  intros Hc. unfold get_eth_usd_price. rewrite (cachedmethod_ttl_miss _ _ _ _ _ _ Hc).
  set (s0 := set_cache_eth_usd_price _ s).
  assert (new_events s (snd (match get_eth_usd_price_uncached w s0 with
            | (Ok v, s2) =>
                (Ok v, match Cachetools.setitem (now w) (cache_eth_usd_price s2) tt v with
                       | Some c' => set_cache_eth_usd_price c' s2
                       | None => s2
                       end)
            | (Raise e, s2) => (Raise e, s2)
            end)) = new_events s0 (snd (get_eth_usd_price_uncached w s0))) as ->.
  { unfold new_events.
    destruct (get_eth_usd_price_uncached w s0) as [[v|e] s2]; simpl; [|done].
    by destruct (Cachetools.setitem _ _ _ _). }
  rewrite (get_eth_usd_price_kraken_stateless w s s0).
  apply get_eth_usd_price_uncached_asks.
Qed.

(** X6. Who [get_eth_usd_price] asks.  With a live cached price it returns
    that price and asks no one.  Without one it asks Kraken, and it asks
    Binance exactly when Kraken failed with [CannotGetEthereumPrice]: a
    price from Kraken, or any other error of Kraken, ends the call without
    a request to Binance. *)
Theorem get_eth_usd_price_asks w s :
  match cached (now w) (cache_eth_usd_price s) tt with
  | Some price =>
      exists s', get_eth_usd_price w s = (Ok price, s') /\ new_events s s' = []
  | None =>
      HttpGet kraken_url ∈ new_events s (snd (get_eth_usd_price w s)) /\
      (HttpGet binance_url ∈ new_events s (snd (get_eth_usd_price w s)) <->
       fst (get_eth_usd_price_kraken w s) = Raise CannotGetEthereumPrice)
  end.
Proof.
  destruct (cached (now w) (cache_eth_usd_price s) tt) as [price|] eqn:Hc.
  - unfold get_eth_usd_price. rewrite (cachedmethod_ttl_hit _ _ _ _ _ _ _ Hc).
    eexists. split; [reflexivity|]. apply new_events_app. simpl. by rewrite app_nil_r.
  - by apply get_eth_usd_price_miss_asks.
Qed.

(** X7. A failure of [get_eth_usd_price] is not cached: when a call raises,
    whatever the exception, no later call finds a cached price, so the
    next call asks Kraken again. *)
Theorem get_eth_usd_price_failure_not_cached w s e s1 :
  get_eth_usd_price w s = (Raise e, s1) ->
  forall w', now w <= now w' ->
    cached (now w') (cache_eth_usd_price s1) tt = None /\
    HttpGet kraken_url ∈ new_events s1 (snd (get_eth_usd_price w' s1)).
Proof.
  intros Hcall w' Hw'.
  assert (cached (now w') (cache_eth_usd_price s1) tt = None) as Hnone.
  { revert Hcall. unfold get_eth_usd_price.
    destruct (cached (now w) (cache_eth_usd_price s) tt) as [price|] eqn:Hc.
    { by rewrite (cachedmethod_ttl_hit _ _ _ _ _ _ _ Hc). }
    rewrite (cachedmethod_ttl_miss _ _ _ _ _ _ Hc).
    set (s0 := set_cache_eth_usd_price _ s).
    destruct (get_eth_usd_price_uncached_same_caches w s0) as (Hsame & _).
    destruct (get_eth_usd_price_uncached w s0) as [[v|e0] s2]; [done|].
    intros [= -> ->]. simpl in Hsame. rewrite Hsame. unfold s0. simpl.
    revert Hc. unfold cached, Cachetools.getitem.
    destruct (Cachetools.find_key tt (Cachetools.items (cache_eth_usd_price s)))
      as [it|] eqn:Hf; simpl.
    - rewrite (find_key_moved tt _ it) by (by destruct it as [[] ?]). simpl.
      unfold Cachetools.expired.
      destruct (Z.ltb_spec (snd (snd it)) (now w)); [|done]. intros _.
      destruct (Z.ltb_spec (snd (snd it)) (now w')); [done|lia].
    - by rewrite Hf. }
  split; [exact Hnone|]. by apply get_eth_usd_price_miss_asks.
Qed.

(** ** What a ticker source returns *)

Lemma get_eth_usd_price_kraken_price w s p s' :
  get_eth_usd_price_kraken w s = (Ok (Some p), s') ->
  Py.float_truthy p = true /\ kraken_quotes w p.
Proof.
  unfold get_eth_usd_price_kraken, fetch. run_method; try done.
  all: match goal with H : negb _ || _ = false |- _ =>
         apply orb_false_elim in H as [Hok%negb_false_iff Herr] end.
  all: match goal with H : negb (Py.float_truthy _) = false |- _ =>
         apply negb_false_iff in H end.
  all: intros ?; simplify_eq; split; [done|].
  all: unfold kraken_quotes; repeat eexists; eauto.
Qed.

Lemma get_eth_usd_price_binance_price w s p s' :
  get_eth_usd_price_binance w s = (Ok p, s') ->
  Py.float_truthy p = true /\ binance_quotes w p.
Proof.
  unfold get_eth_usd_price_binance, fetch. run_method; try done.
  all: match goal with H : negb (ok _) = false |- _ => apply negb_false_iff in H end.
  all: match goal with H : negb (Py.float_truthy _) = false |- _ =>
         apply negb_false_iff in H end.
  all: intros ?; simplify_eq; split; [done|].
  all: unfold binance_quotes; repeat eexists; eauto.
Qed.

(** X8. A price that [get_eth_usd_price] fetches (no live cached price) is
    never zero, and it is the price one of the tickers quotes: the float
    of the last trade price in an answer of Kraken that is ok and reports
    no error, or, when the Kraken source failed with
    [CannotGetEthereumPrice], the float of the [price] field of an answer
    of Binance that is ok. *)
Theorem get_eth_usd_price_fetched_nonzero w s p s' :
  cached (now w) (cache_eth_usd_price s) tt = None ->
  get_eth_usd_price w s = (Ok (Some p), s') ->
  Py.float_truthy p = true /\
  (kraken_quotes w p \/
   (fst (get_eth_usd_price_kraken w s) = Raise CannotGetEthereumPrice /\
    binance_quotes w p)).
Proof.
  intros Hc. unfold get_eth_usd_price. rewrite (cachedmethod_ttl_miss _ _ _ _ _ _ Hc).
  set (s0 := set_cache_eth_usd_price _ s).
  rewrite (get_eth_usd_price_kraken_stateless w s s0).
  destruct (get_eth_usd_price_uncached w s0) as [[v|e] s2] eqn:Hu; [|done].
  intros [= -> _]. revert Hu. unfold get_eth_usd_price_uncached, try_except.
  destruct (get_eth_usd_price_kraken w s0) as [[v|e] s1] eqn:Hk.
  - intros [= -> ->]. apply get_eth_usd_price_kraken_price in Hk as (Ht & Hq).
    split; [done|]. by left.
  - destruct (decide (e = CannotGetEthereumPrice)) as [->|]; [|done].
    unfold bind, ret.
    destruct (get_eth_usd_price_binance w s1) as [[v|e'] s3] eqn:Hb; [|done].
    intros [= -> ->]. apply get_eth_usd_price_binance_price in Hb as (Ht & Hq).
    split; [done|]. by right.
Qed.

(** ** Who is asked for a token's value *)

Lemma get_token_eth_value_trace t w s :
  new_events s (snd (get_token_eth_value t w s)) =
    match cached (now w) (cache_token_eth_value s) t with
    | Some _ => []
    | None =>
        UniswapGetPrice t ::
        match uniswap_get_price w t with
        | Some _ => []
        | None =>
            LogWarning "Cannot get eth value for token-address=%s on uniswap, trying Kyber" t ::
            KyberGetPrice t ::
            match kyber_get_price w t with
            | Some _ => []
            | None => [LogWarning "Cannot get eth value for token-address=%s from Kyber" t]
            end
        end
    end.
Proof.
  unfold get_token_eth_value.
  destruct (cached (now w) (cache_token_eth_value s) t) as [p|] eqn:Hc.
  - rewrite (cachedmethod_ttl_hit _ _ _ _ _ _ _ Hc). simpl.
    apply new_events_app. simpl. by rewrite app_nil_r.
  - rewrite (cachedmethod_ttl_miss _ _ _ _ _ _ Hc).
    unfold get_token_eth_value_uncached, bind, call, logger_warning, ret. simpl.
    destruct (uniswap_get_price w t); [|destruct (kyber_get_price w t)]; simpl;
      match goal with |- context [Cachetools.setitem ?a ?b ?c ?d] =>
        destruct (Cachetools.setitem a b c d) end; simpl;
      apply new_events_app; simpl; rewrite <- ?app_assoc; reflexivity.
Qed.

(** X9. Who [get_token_eth_value] asks.  Uniswap is asked exactly when the
    token has no live cached value, Kyber exactly when in addition Uniswap
    has no price, and Uniswap comes first; no oracle is asked about another
    token and nothing but the oracles and the log is touched. *)
Theorem get_token_eth_value_asks t w s :
  let evs := new_events s (snd (get_token_eth_value t w s)) in
  (UniswapGetPrice t ∈ evs <-> cached (now w) (cache_token_eth_value s) t = None) /\
  (KyberGetPrice t ∈ evs <->
     cached (now w) (cache_token_eth_value s) t = None /\ uniswap_get_price w t = None) /\
  (KyberGetPrice t ∈ evs -> exists l l', evs = UniswapGetPrice t :: l ++ KyberGetPrice t :: l') /\
  (forall ev, ev ∈ evs ->
     ev = UniswapGetPrice t \/ ev = KyberGetPrice t \/ is_warning ev).
Proof.
  intros evs. unfold evs. rewrite get_token_eth_value_trace.
  destruct (cached (now w) (cache_token_eth_value s) t) as [p|];
    [|destruct (uniswap_get_price w t) as [p|];
      [|destruct (kyber_get_price w t) as [p|]]].
  all: split; [rewrite ?elem_of_cons, ?elem_of_nil; intuition congruence|].
  all: split; [rewrite ?elem_of_cons, ?elem_of_nil; intuition congruence|].
  all: split;
    [|intros ev; rewrite ?elem_of_cons, ?elem_of_nil; unfold is_warning;
      intuition (subst; auto)].
  all: rewrite ?elem_of_cons, ?elem_of_nil; try (intuition congruence).
  all: intros _; eexists [_], _; reflexivity.
Qed.

(** ** The tickers are asked once per call *)

Lemma get_eth_usd_price_uncached_requests w s :
  exists evs,
    events (snd (get_eth_usd_price_uncached w s)) = events s ++ evs /\ ticker_requests evs.
Proof.
  unfold get_eth_usd_price_uncached, try_except.
  destruct (get_eth_usd_price_kraken_asks w s) as (rest & Hev & Hw).
  destruct (get_eth_usd_price_kraken w s) as [[p|e] s1]; simpl in *.
  { eexists. split; [exact Hev|]. by constructor. }
  destruct (decide (e = CannotGetEthereumPrice)) as [->|Hne]; simpl.
  2:{ eexists. split; [exact Hev|]. by constructor. }
  unfold bind, ret.
  destruct (get_eth_usd_price_binance_asks w s1) as (rest' & Hev' & Hw').
  exists (HttpGet kraken_url :: rest ++ HttpGet binance_url :: rest').
  split; [|by constructor].
  destruct (get_eth_usd_price_binance w s1) as [[p|e] s2]; simpl in *;
    rewrite Hev' , Hev, <- app_assoc; reflexivity.
Qed.

Lemma get_eth_usd_price_requests w s :
  exists evs,
    events (snd (get_eth_usd_price w s)) = events s ++ evs /\ ticker_requests evs.
Proof.
  unfold get_eth_usd_price, cachedmethod_ttl.
  destruct (Cachetools.getitem (now w) (cache_eth_usd_price s) tt) as [[v|] c]; simpl.
  { exists []. split; [by rewrite app_nil_r|constructor]. }
  destruct (get_eth_usd_price_uncached_requests w (set_cache_eth_usd_price c s))
    as (evs & Hev & Ht).
  exists evs. split; [|done].
  destruct (get_eth_usd_price_uncached w (set_cache_eth_usd_price c s)) as [[v|e] s2];
    simpl in *; [|done].
  by destruct (Cachetools.setitem _ _ _ _).
Qed.

(** X10. One call of [get_usd_balances] asks the ticker sources once,
    however many balances it values: its trace is the trace of reading the
    balances, then at most one request to Kraken and after it at most one
    to Binance, then the trace of valuing the balances; reading and valuing
    make no request to a ticker. *)
Theorem get_usd_balances_asks_tickers_once a w s :
  exists reading asking valuing,
    new_events s (snd (get_usd_balances a w s)) = reading ++ asking ++ valuing /\
    Forall not_ticker reading /\
    ticker_requests asking /\
    Forall not_ticker valuing.
Proof.
  unfold get_usd_balances, bind.
  destruct (get_balances_logs a w s) as (reading & Hr & Hnr).
  destruct (get_balances a w s) as [[balances|e] s1]; simpl in *.
  2:{ exists reading, [], []. rewrite (new_events_app _ _ _ Hr), !app_nil_r.
      repeat split; [done|constructor|constructor]. }
  destruct (get_eth_usd_price_requests w s1) as (asking & Ha & Hta).
  destruct (get_eth_usd_price w s1) as [[eth_value|e] s2]; simpl in *.
  2:{ exists reading, asking, []. rewrite app_nil_r.
      split; [|repeat split; [done|done|constructor]].
      apply new_events_app. by rewrite Ha, Hr, <- app_assoc. }
  destruct (get_usd_balances_loop_logs eth_value balances [] w s2) as (valuing & Hv & Hnv).
  exists reading, asking, valuing. split; [|done].
  apply new_events_app.
  destruct (get_usd_balances_loop eth_value balances [] w s2) as [r s3]; simpl in *.
  by rewrite Hv, Ha, Hr, <- !app_assoc.
Qed.

(** ** After the time to live *)

Lemma cached_after_expiry {K V} `{EqDecision K} time (c : Cachetools.TTLCache K V) k e :
  expiry c k = Some e -> e < time -> cached time c k = None.
Proof.
  unfold expiry, cached, Cachetools.getitem.
  destruct (Cachetools.find_key k (Cachetools.items c)) as [[k' [v e']]|]; [|done].
  intros [= ->] Hlt. unfold Cachetools.expired. simpl.
  by destruct (Z.ltb_spec e time); [|lia].
Qed.

(** X11. A price is served from the cache for 1800 seconds and no longer:
    when [get_token_eth_value] had to compute the price of a token, a call
    made more than 1800 seconds later runs the price chain again and
    returns what the oracles say then; and when [get_eth_usd_price] had to
    fetch the base price, a call made more than 1800 seconds later asks
    Kraken again. *)
Theorem prices_refreshed_after_ttl w s :
  configured s ->
  (forall a price s1,
     cached (now w) (cache_token_eth_value s) a = None ->
     get_token_eth_value a w s = (Ok price, s1) ->
     forall w', now w + 1800 < now w' ->
       fst (get_token_eth_value a w' s1) = Ok (chain_price w' a) /\
       UniswapGetPrice a ∈ new_events s1 (snd (get_token_eth_value a w' s1))) /\
  (forall price s1,
     cached (now w) (cache_eth_usd_price s) tt = None ->
     get_eth_usd_price w s = (Ok price, s1) ->
     forall w', now w + 1800 < now w' ->
       HttpGet kraken_url ∈ new_events s1 (snd (get_eth_usd_price w' s1))).
Proof.
  intros (Hm1 & Ht1 & Hm2 & Ht2). split.
  - intros a price s1 Hc Hcall w' Hw'. unfold get_token_eth_value in Hcall.
    eapply cachedmethod_ttl_again in Hcall as (e & He & _ & Hfresh & _);
      [|done|done| |rewrite Hm2; lia|rewrite Ht2; lia].
    2:{ intros w0 s0. by destruct (get_token_eth_value_uncached_same_caches a w0 s0) as (?&?&?). }
    specialize (Hfresh Hc). rewrite Ht2 in Hfresh. subst e.
    pose proof (cached_after_expiry (now w') _ _ _ He Hw') as Hnone.
    split.
    + destruct (get_token_eth_value_result a w' s1) as (s2 & ->). by rewrite Hnone.
    + rewrite get_token_eth_value_trace, Hnone. by left.
  - intros price s1 Hc Hcall w' Hw'. unfold get_eth_usd_price in Hcall.
    eapply cachedmethod_ttl_again in Hcall as (e & He & _ & Hfresh & _);
      [|done|done| |rewrite Hm1; lia|rewrite Ht1; lia].
    2:{ intros w0 s0. by destruct (get_eth_usd_price_uncached_same_caches w0 s0) as (?&?&?). }
    specialize (Hfresh Hc). rewrite Ht1 in Hfresh. subst e.
    pose proof (cached_after_expiry (now w') _ _ _ He Hw') as Hnone.
    by apply get_eth_usd_price_miss_asks.
Qed.

(** ** Logo addresses *)

Lemma list_ascii_of_string_app a b :
  String.list_ascii_of_string (a +:+ b) =
    String.list_ascii_of_string a ++ String.list_ascii_of_string b.
Proof. induction a as [|c a IH]; simpl; [done|by rewrite IH]. Qed.

Lemma string_app_inv_tail a b t : a +:+ t = b +:+ t -> a = b.
Proof.
  intros H. apply (f_equal String.list_ascii_of_string) in H.
  rewrite !list_ascii_of_string_app in H. apply app_inv_tail in H.
  rewrite <- (String.string_of_list_ascii_of_string a),
          <- (String.string_of_list_ascii_of_string b).
  by rewrite H.
Qed.

(** X12. Tokens with different addresses have different logo addresses:
    [get_erc20_logo_uri] never maps two addresses to one URI, and so the
    metadata records built for two different addresses differ in their
    logo. *)
Theorem get_erc20_logo_uri_inj a b n sy d n' sy' d' :
  a <> b ->
  get_erc20_logo_uri a <> get_erc20_logo_uri b /\
  logo_uri (new_Erc20InfoWithLogo a n sy d) <> logo_uri (new_Erc20InfoWithLogo b n' sy' d').
Proof.
  intros Hne.
  assert (get_erc20_logo_uri a <> get_erc20_logo_uri b) as Hinj.
  { unfold get_erc20_logo_uri. intros H. apply String.app_inj in H.
    by apply string_app_inv_tail in H. }
  split; exact Hinj.
Qed.

End Service.

(** ** Examples *)

#[local] Abbreviation usd_balances :=
  (get_usd_balances Py.float_of_decimal_string Sample.isChecksumAddress).
#[local] Abbreviation eth_usd_price := (get_eth_usd_price Py.float_of_decimal_string).
#[local] Abbreviation eth_usd_price_kraken := (get_eth_usd_price_kraken Py.float_of_decimal_string).
#[local] Abbreviation eth_usd_price_binance := (get_eth_usd_price_binance Py.float_of_decimal_string).
#[local] Abbreviation balances_of := (get_balances Sample.isChecksumAddress).

(** C1. Where the code leaves the claim: a Kraken answer without [result]
    makes the Kraken source raise [KeyError], which [get_eth_usd_price] lets
    through without asking Binance, although Binance has a price; a Kraken
    answer with an empty [result] makes the source return [None]; a Binance
    answer without [price] makes the Binance source raise [KeyError]; a
    Kraken answer that is not ok raises [ValueError] when its body is no
    JSON and [KeyError] when its body has no [error]. *)
Lemma ticker_without_price :
  let s := new_BalanceService in
  let binance := Sample.binance_avg_price "1990.5" in
  let w1 := Sample.world 0 Sample.kraken_no_result binance in
  let w2 := Sample.world 0 Sample.kraken_empty_result binance in
  let w3 := Sample.world 0 Sample.kraken_error Sample.binance_no_price in
  let w4 := Sample.world 0 Sample.kraken_unavailable binance in
  let w5 := Sample.world 0 Sample.kraken_bad_gateway binance in
  fst (eth_usd_price_kraken w1 s) = Raise KeyError /\
  fst (eth_usd_price_binance w1 s) = Ok 1990.5%float /\
  fst (eth_usd_price w1 s) = Raise KeyError /\
  events (snd (eth_usd_price w1 s)) = [HttpGet kraken_url] /\
  fst (eth_usd_price_kraken w2 s) = Ok None /\
  fst (eth_usd_price w2 s) = Ok None /\
  fst (eth_usd_price_binance w3 s) = Raise KeyError /\
  fst (eth_usd_price w3 s) = Raise KeyError /\
  fst (eth_usd_price_kraken w4 s) = Raise ValueError /\
  fst (eth_usd_price w4 s) = Raise ValueError /\
  fst (eth_usd_price_kraken w5 s) = Raise KeyError /\
  fst (eth_usd_price w5 s) = Raise KeyError.
Proof. vm_compute. repeat split; reflexivity. Qed.

(** C2. Where the code leaves the claim: resolving a contract that is no
    ERC20 changes the metadata cache (the failure is stored), and a second
    resolution, made when the contract does answer, still fails and does
    not ask the node. *)
Lemma get_token_info_negative_caching :
  let s := new_BalanceService in
  let w := Sample.calm 0 in
  let w' := Sample.repaired w in
  let s1 := snd (get_token_info Sample.junk w s) in
  let s2 := snd (get_token_info Sample.junk w' s1) in
  fst (get_token_info Sample.junk w s) = Ok None /\
  cache_token_info s !! Sample.junk = None /\
  cache_token_info s1 !! Sample.junk = Some None /\
  cache_token_info s1 <> cache_token_info s /\
  is_Some (erc20_get_info w' Sample.junk) /\
  fst (get_token_info Sample.junk w' s1) = Ok None /\
  new_events s1 s2 = [].
Proof.
  intros s w w' s1 s2.
  assert (cache_token_info s !! Sample.junk = None) as H0 by (vm_compute; reflexivity).
  assert (cache_token_info s1 !! Sample.junk = Some None) as H1 by (vm_compute; reflexivity).
  repeat split; try (vm_compute; reflexivity); try assumption.
  - intros H. rewrite H in H1. congruence.
  - eexists. vm_compute. reflexivity.
Qed.

(** Witnesses: each theorem above at the sample Safe. *)

Lemma get_token_info_caches_unresolvable_witness :
  let w := Sample.calm 0 in
  let s1 := snd (get_token_info Sample.junk w new_BalanceService) in
  get_token_info Sample.junk w new_BalanceService = (Ok None, s1) /\
  cache_token_info s1 = <[Sample.junk := None]> (cache_token_info new_BalanceService) /\
  forall w', get_token_info Sample.junk w' s1 = (Ok None, s1).
Proof.
  intros w s1.
  assert (get_token_info Sample.junk w new_BalanceService = (Ok None, s1)) as H
    by (vm_compute; reflexivity).
  split; [exact H|].
  exact (get_token_info_caches_unresolvable Sample.junk w new_BalanceService s1 H).
Defined.

Lemma get_balances_filter_witness :
  let w := Sample.calm 0 in
  Sample.isChecksumAddress Sample.safe = true /\
  exists s',
    balances_of Sample.safe w new_BalanceService =
      (Ok (omap (keep_balance (resolve w (cache_token_info new_BalanceService)))
             (erc20_get_balances w Sample.safe (erc20_tokens_used_by_address w Sample.safe))), s').
Proof.
  intros w.
  assert (Sample.isChecksumAddress Sample.safe = true) as H by (vm_compute; reflexivity).
  split; [exact H|].
  exact (get_balances_filter Sample.isChecksumAddress Sample.safe w new_BalanceService H).
Defined.

Lemma get_usd_balances_frame_witness :
  let w := Sample.calm 0 in
  let r := usd_balances Sample.safe w new_BalanceService in
  exists out,
    r = (Ok out, snd r) /\
    exists balances s1,
      balances_of Sample.safe w new_BalanceService = (Ok balances, s1) /\
      map as_Balance out = balances.
Proof.
  intros w r.
  destruct (fst r) as [out|e] eqn:Hr; [|vm_compute in Hr; discriminate].
  exists out.
  assert (r = (Ok out, snd r)) as H by (rewrite <- Hr; by destruct r).
  split; [exact H|].
  exact (get_usd_balances_frame Py.float_of_decimal_string Sample.isChecksumAddress
           Sample.safe w new_BalanceService out (snd r) H).
Defined.

Lemma get_usd_balances_amounts_witness :
  let w := Sample.calm 0 in
  let r := usd_balances Sample.safe w new_BalanceService in
  let usdc_entry :=
    {| usd_token_address := Some Sample.usdc;
       usd_token := Some (new_Erc20InfoWithLogo Sample.usdc "USD Coin" "USDC" 6);
       usd_balance := 2500000; balance_usd := 5 |} in
  let out :=
    [ {| usd_token_address := None; usd_token := None;
         usd_balance := 1500000000000000000; balance_usd := 3000 |};
      usdc_entry;
      {| usd_token_address := Some Sample.dai;
         usd_token := Some (new_Erc20InfoWithLogo Sample.dai "Dai Stablecoin" "DAI" 18);
         usd_balance := 3000000000000000000; balance_usd := 0 |} ] in
  r = (Ok out, snd r) /\
  exists balances s1 eth_value s2,
    balances_of Sample.safe w new_BalanceService = (Ok balances, s1) /\
    eth_usd_price w s1 = (Ok eth_value, s2) /\
    (balances !! 1%nat = Some (as_Balance usdc_entry) /\
     exists addr token_price_base si',
       usd_token_address usdc_entry = Some addr /\
       get_token_eth_value addr w (valuation_state w s2 (take 1 balances)) =
         (Ok token_price_base, si') /\
       (Py.float_truthy token_price_base = true ->
        exists base_price_usd t,
          eth_value = Some base_price_usd /\ usd_token usdc_entry = Some t /\
          usd_amount base_price_usd (Some token_price_base)
            (usd_balance usdc_entry) (Z.of_N (decimals t)) = Ok (balance_usd usdc_entry))) /\
    usd_amount 2000 None 1500000000000000000 18 = Ok 3000%float /\
    usd_amount 2000 (Some 0.001%float) 2500000 6 = Ok 5%float.
Proof.
  intros w r usdc_entry out.
  assert (r = (Ok out, snd r)) as H by (vm_compute; reflexivity).
  split; [exact H|].
  destruct (get_usd_balances_amounts Py.float_of_decimal_string Sample.isChecksumAddress)
    as (Hrun & Hbase & Htoken).
  destruct (Hrun Sample.safe w new_BalanceService _ _ H)
    as (balances & s1 & eth_value & s2 & Hb & He & Hentry).
  exists balances, s1, eth_value, s2.
  split; [exact Hb|]. split; [exact He|].
  split; [exact (Hentry 1%nat usdc_entry eq_refl)|].
  split; [exact Hbase | exact Htoken].
Defined.


Lemma zero_price_token_is_kept_witness :
  let w := Sample.calm 0 in
  let r := usd_balances Sample.safe w new_BalanceService in
  exists out,
    r = (Ok out, snd r) /\
    exists balances s1 eth_value s2,
      balances_of Sample.safe w new_BalanceService = (Ok balances, s1) /\
      eth_usd_price w s1 = (Ok eth_value, s2) /\
      length out = length balances /\
      forall i b,
        balances !! i = Some b ->
        Py.str_truthy (token_address b) = true ->
        is_Some (token b) /\
        exists addr token_price_base si',
          token_address b = Some addr /\
          get_token_eth_value addr w (valuation_state w s2 (take i balances)) =
            (Ok token_price_base, si') /\
          (Py.float_truthy token_price_base = false ->
           out !! i = Some (with_usd b PrimFloat.zero)).
Proof.
  intros w r.
  destruct (fst r) as [out|e] eqn:Hr; [|vm_compute in Hr; discriminate].
  exists out.
  assert (r = (Ok out, snd r)) as H by (rewrite <- Hr; by destruct r).
  split; [exact H|].
  exact (zero_price_token_is_kept Py.float_of_decimal_string Sample.isChecksumAddress
           Sample.safe w new_BalanceService out (snd r) H).
Defined.

Lemma prices_stable_within_ttl_witness :
  let w := Sample.calm 0 in
  let s := new_BalanceService in
  configured s /\
  (forall price s1,
     eth_usd_price w s = (Ok price, s1) ->
     exists e,
       expiry (cache_eth_usd_price s1) tt = Some e /\
       now w <= e /\
       (cached (now w) (cache_eth_usd_price s) tt = None -> e = now w + 1800) /\
       forall w', now w' <= e -> eth_usd_price w' s1 = (Ok price, s1)) /\
  (forall a price s1,
     get_token_eth_value a w s = (Ok price, s1) ->
     exists e,
       expiry (cache_token_eth_value s1) a = Some e /\
       now w <= e /\
       (cached (now w) (cache_token_eth_value s) a = None -> e = now w + 1800) /\
       forall w', now w' <= e -> get_token_eth_value a w' s1 = (Ok price, s1)).
Proof.
  intros w s.
  assert (configured s) as H by (repeat split; reflexivity).
  split; [exact H|].
  exact (prices_stable_within_ttl Py.float_of_decimal_string w s H).
Defined.

Lemma get_eth_usd_price_failure_not_cached_witness :
  let w := Sample.stormy 0 in
  let w' := Sample.calm 10 in
  let r := eth_usd_price w new_BalanceService in
  r = (Raise CannotGetEthereumPrice, snd r) /\
  now w <= now w' /\
  cached (now w') (cache_eth_usd_price (snd r)) tt = None /\
  HttpGet kraken_url ∈ new_events (snd r) (snd (eth_usd_price w' (snd r))).
Proof.
  intros w w' r.
  assert (r = (Raise CannotGetEthereumPrice, snd r)) as H by (vm_compute; reflexivity).
  assert (now w <= now w') as Hle by (simpl; lia).
  split; [exact H|]. split; [exact Hle|].
  exact (get_eth_usd_price_failure_not_cached Py.float_of_decimal_string
           w new_BalanceService CannotGetEthereumPrice (snd r) H w' Hle).
Defined.

Lemma get_eth_usd_price_fetched_nonzero_witness :
  let w := Sample.calm 0 in
  let r := eth_usd_price w new_BalanceService in
  cached (now w) (cache_eth_usd_price new_BalanceService) tt = None /\
  r = (Ok (Some 2000%float), snd r) /\
  Py.float_truthy 2000 = true /\
  (kraken_quotes Py.float_of_decimal_string w 2000 \/
   (fst (eth_usd_price_kraken w new_BalanceService) = Raise CannotGetEthereumPrice /\
    binance_quotes Py.float_of_decimal_string w 2000)).
Proof.
  intros w r.
  assert (cached (now w) (cache_eth_usd_price new_BalanceService) tt = None) as Hc
    by (vm_compute; reflexivity).
  assert (r = (Ok (Some 2000%float), snd r)) as H by (vm_compute; reflexivity).
  split; [exact Hc|]. split; [exact H|].
  exact (get_eth_usd_price_fetched_nonzero Py.float_of_decimal_string
           w new_BalanceService 2000%float (snd r) Hc H).
Defined.


Lemma get_balances_metadata_witness :
  let w := Sample.calm 0 in
  let r := balances_of Sample.safe w new_BalanceService in
  exists balances,
    metadata_matches (cache_token_info new_BalanceService) /\
    r = (Ok balances, snd r) /\
    metadata_matches (cache_token_info (snd r)) /\
    forall b t, b ∈ balances -> token b = Some t ->
      token_address b = Some (address t) /\ logo_uri t = get_erc20_logo_uri (address t).
Proof.
  intros w r.
  destruct (fst r) as [balances|e] eqn:Hr; [|vm_compute in Hr; discriminate].
  exists balances.
  assert (metadata_matches (cache_token_info new_BalanceService)) as Hm
    by (intros a i Ha; simpl in Ha; by rewrite lookup_empty in Ha).
  assert (r = (Ok balances, snd r)) as H by (rewrite <- Hr; by destruct r).
  split; [exact Hm|]. split; [exact H|].
  exact (get_balances_metadata Sample.isChecksumAddress
           Sample.safe w new_BalanceService balances (snd r) Hm H).
Defined.

Lemma get_balances_entries_witness :
  let w := Sample.calm 0 in
  let r := balances_of Sample.safe w new_BalanceService in
  let raw_balances :=
    erc20_get_balances w Sample.safe (erc20_tokens_used_by_address w Sample.safe) in
  exists balances,
    r = (Ok balances, snd r) /\
    (length balances <= length raw_balances)%nat /\
    (forall b, b ∈ balances ->
       if Py.str_truthy (token_address b)
       then 0 < balance b /\ is_Some (token b)
       else token b = None) /\
    (forall raw, raw ∈ raw_balances ->
       Py.str_truthy (raw_token_address raw) = false ->
       {| token_address := raw_token_address raw; token := None;
          balance := raw_balance raw |} ∈ balances).
Proof.
  intros w r raw_balances.
  destruct (fst r) as [balances|e] eqn:Hr; [|vm_compute in Hr; discriminate].
  exists balances.
  assert (r = (Ok balances, snd r)) as H by (rewrite <- Hr; by destruct r).
  split; [exact H|].
  exact (get_balances_entries Sample.isChecksumAddress
           Sample.safe w new_BalanceService balances (snd r) H).
Defined.

Lemma get_balances_again_witness :
  let w := Sample.calm 0 in
  let r := balances_of Sample.safe w new_BalanceService in
  exists balances,
    r = (Ok balances, snd r) /\
    exists s2,
      balances_of Sample.safe w (snd r) = (Ok balances, s2) /\
      new_events (snd r) s2 =
        [Erc20TokensUsedByAddress Sample.safe;
         Erc20GetBalances Sample.safe (erc20_tokens_used_by_address w Sample.safe)].
Proof.
  intros w r.
  destruct (fst r) as [balances|e] eqn:Hr; [|vm_compute in Hr; discriminate].
  exists balances.
  assert (r = (Ok balances, snd r)) as H by (rewrite <- Hr; by destruct r).
  split; [exact H|].
  exact (get_balances_again Sample.isChecksumAddress
           Sample.safe w new_BalanceService balances (snd r) H).
Defined.

Lemma get_usd_balances_failures_witness :
  let w := Sample.stormy 0 in
  let s := new_BalanceService in
  let r := usd_balances Sample.safe w s in
  r = (Raise CannotGetEthereumPrice, snd r) /\
  ((Sample.isChecksumAddress Sample.safe = false /\
    CannotGetEthereumPrice = AssertionError /\ snd r = s) \/
   exists balances s1,
     balances_of Sample.safe w s = (Ok balances, s1) /\
     (eth_usd_price w s1 = (Raise CannotGetEthereumPrice, snd r) \/
      exists eth_value s2,
        eth_usd_price w s1 = (Ok eth_value, s2) /\
        (CannotGetEthereumPrice = OverflowError \/
         (CannotGetEthereumPrice = TypeError /\ eth_value = None)))).
Proof.
  intros w s r.
  assert (r = (Raise CannotGetEthereumPrice, snd r)) as H by (vm_compute; reflexivity).
  split; [exact H|].
  exact (get_usd_balances_failures Py.float_of_decimal_string Sample.isChecksumAddress
           Sample.safe w s CannotGetEthereumPrice (snd r) H).
Defined.

Lemma prices_refreshed_after_ttl_witness :
  let w := Sample.calm 0 in
  let w' := Sample.calm 1801 in
  let s := new_BalanceService in
  let r := get_token_eth_value Sample.usdc w s in
  configured s /\
  cached (now w) (cache_token_eth_value s) Sample.usdc = None /\
  r = (Ok 0.001%float, snd r) /\
  now w + 1800 < now w' /\
  fst (get_token_eth_value Sample.usdc w' (snd r)) = Ok (chain_price w' Sample.usdc) /\
  UniswapGetPrice Sample.usdc ∈
    new_events (snd r) (snd (get_token_eth_value Sample.usdc w' (snd r))).
Proof.
  intros w w' s r.
  assert (configured s) as Hs by (vm_compute; repeat split; reflexivity).
  assert (cached (now w) (cache_token_eth_value s) Sample.usdc = None) as Hc
    by (vm_compute; reflexivity).
  assert (r = (Ok 0.001%float, snd r)) as H by (vm_compute; reflexivity).
  assert (now w + 1800 < now w') as Hlt by (simpl; lia).
  split; [exact Hs|]. split; [exact Hc|]. split; [exact H|]. split; [exact Hlt|].
  exact (proj1 (prices_refreshed_after_ttl Py.float_of_decimal_string w s Hs)
           Sample.usdc 0.001%float (snd r) Hc H w' Hlt).
Defined.

Lemma get_erc20_logo_uri_inj_witness :
  Sample.usdc <> Sample.dai /\
  get_erc20_logo_uri Sample.usdc <> get_erc20_logo_uri Sample.dai /\
  logo_uri (new_Erc20InfoWithLogo Sample.usdc "USD Coin" "USDC" 6) <>
    logo_uri (new_Erc20InfoWithLogo Sample.dai "Dai Stablecoin" "DAI" 18).
Proof.
  assert (Sample.usdc <> Sample.dai) as H by (vm_compute; discriminate).
  split; [exact H|].
  exact (get_erc20_logo_uri_inj Sample.usdc Sample.dai "USD Coin" "USDC" 6
           "Dai Stablecoin" "DAI" 18 H).
Defined.
